(** * The debug session state machine of src/common/debugger.cpp

    A shallow embedding of [readProcessString] and [DebugMainLoop]:
    the registry [g_Processes], the locals of the loop, the dispatch on the
    kind of the debug event and the calls made to the operating system, the
    symbol provider and the diagnostics producers, recorded as a trace. *)

From Stdlib Require Import ZArith List Lia Bool String.
From stdpp Require Import base option list gmap sorting.
Import ListNotations.

Local Open Scope Z_scope.

(** ** Machine integers and platform constants *)

Abbreviation DWORD := Z (only parsing).
Abbreviation HANDLE := Z (only parsing).
Definition NULL : HANDLE := 0.

(** [(UINT)x] and [(DWORD)x]: reduction modulo 2^32. *)
Definition to_DWORD (z : Z) : Z := z mod 2 ^ 32.

(** [NTSTATUS] is a signed 32-bit [LONG]: the two's complement reading. *)
Definition to_NTSTATUS (z : Z) : Z :=
  let w := z mod 2 ^ 32 in if w <? 2 ^ 31 then w else w - 2 ^ 32.

Definition DBG_CONTINUE : DWORD := 0x00010002.
Definition DBG_EXCEPTION_NOT_HANDLED : DWORD := 0x80010001.
Definition STATUS_BREAKPOINT : Z := to_NTSTATUS 0x80000003.
Definition STATUS_WX86_BREAKPOINT : Z := to_NTSTATUS 0x4000001F.
Definition EXIT_FAILURE : Z := 1.

Definition SYMOPT_UNDNAME : Z := 0x00000002.
Definition SYMOPT_DEFERRED_LOADS : Z := 0x00000004.
Definition SYMOPT_LOAD_LINES : Z := 0x00000010.
Definition SYMOPT_OMAP_FIND_NEAREST : Z := 0x00000020.
Definition SYMOPT_INCLUDE_32BIT_MODULES : Z := 0x00002000.
Definition SYMOPT_DEBUG : Z := 0x80000000.

(** ** The registry *)

Record THREAD_INFO := { hThread : HANDLE }.

Record PROCESS_INFO := {
  hProcess : HANDLE;
  Threads : gmap Z THREAD_INFO
}.

(** What [std::map::operator[]] inserts for an absent key: a
    value-initialised object. *)
Definition THREAD_INFO_default : THREAD_INFO := {| hThread := NULL |}.
Definition PROCESS_INFO_default : PROCESS_INFO :=
  {| hProcess := NULL; Threads := ∅ |}.

(** [m[k]]: the record under [k] and the map, into which a default record is
    inserted when [k] was absent. *)
Definition subscript_p (pid : Z) (g : gmap Z PROCESS_INFO)
  : PROCESS_INFO * gmap Z PROCESS_INFO :=
  match g !! pid with
  | Some p => (p, g)
  | None => (PROCESS_INFO_default, <[pid := PROCESS_INFO_default]> g)
  end.

Definition subscript_t (tid : Z) (ts : gmap Z THREAD_INFO)
  : THREAD_INFO * gmap Z THREAD_INFO :=
  match ts !! tid with
  | Some t => (t, ts)
  | None => (THREAD_INFO_default, <[tid := THREAD_INFO_default]> ts)
  end.

(** Iteration of a [std::map] goes by ascending key. *)
Definition thread_ids (ts : gmap Z THREAD_INFO) : list Z :=
  merge_sort Z.le (map fst (map_to_list ts)).

(** ** Options and debug events *)

(** Modelled from the spec: the declaration of [DebugOptions] is in
    debugger.h, which is not among the sources; these are the five fields
    [DebugMainLoop] reads ([debug_flag] is the spec's traceEvents,
    [first_chance] its reportFirstChance, [breakpoint_flag] its
    captureAttachBreakpoint, [verbose_flag] its dumpAllThreads and [hEvent]
    its attachSignal). *)
Record DebugOptions := {
  breakpoint_flag : bool;
  verbose_flag : bool;
  debug_flag : bool;
  first_chance : bool;
  hEvent : HANDLE
}.

Record EXCEPTION_RECORD := {
  ExceptionCode : DWORD;
  ExceptionFlags : DWORD;
  ExceptionAddress : Z
}.

(** The union [DebugEvent.u], tagged by [dwDebugEventCode]. *)
Inductive DEBUG_INFO :=
| EXCEPTION_DEBUG_EVENT (ExceptionRecord : EXCEPTION_RECORD) (dwFirstChance : DWORD)
| CREATE_THREAD_DEBUG_EVENT (hThread' : HANDLE)
| CREATE_PROCESS_DEBUG_EVENT (hFile hProcess' hThread' : HANDLE) (lpBaseOfImage : Z)
| EXIT_THREAD_DEBUG_EVENT (dwExitCode : DWORD)
| EXIT_PROCESS_DEBUG_EVENT (dwExitCode : DWORD)
| LOAD_DLL_DEBUG_EVENT (hFile : HANDLE) (lpBaseOfDll : Z)
| UNLOAD_DLL_DEBUG_EVENT (lpBaseOfDll : Z)
| OUTPUT_DEBUG_STRING_EVENT (lpDebugStringData : Z) (fUnicode : Z) (nDebugStringLength : Z)
| RIP_EVENT
| OTHER_EVENT (dwDebugEventCode : DWORD).

Record DEBUG_EVENT := {
  dwProcessId : DWORD;
  dwThreadId : DWORD;
  u : DEBUG_INFO
}.

(** ** What the environment answers *)

(** The answer of one [ReadProcessMemory] call: its return value, the bytes
    it copied to the start of the buffer and the count it stored in
    [NumberOfBytesRead]. *)
Record RPM_REPLY := {
  rpm_ok : bool;
  rpm_data : list Byte.byte;
  rpm_NumberOfBytesRead : nat
}.

(** The answers to the calls one iteration of the loop can make. *)
Record OS_REPLIES := {
  r_SymGetOptions : Z;
  r_IsWow64Process : bool;
  r_InitializeSym : bool;
  r_SymLoadModuleEx : bool;
  r_SymCleanup : bool;
  r_ReadProcessMemory : RPM_REPLY
}.

(** ** The trace of calls *)

(** The thread handle read through [pThreadInfo] for a [dumpStack] call:
    [Defined h] when the pointer points to a record of the registry, whose
    handle is [h]; [Indeterminate] when the pointer is invalid, never
    assigned in this call or its target erased. No handler calls [dumpStack]
    with [Indeterminate]: it ends as [Undefined] at the read. *)
Inductive rvalue := Defined (h : HANDLE) | Indeterminate.

Inductive action :=
| lprintf (fmt : string) (args : list Z)
| OutputDebug (fmt : string)
| SetEvent (h : HANDLE)
| CloseHandle (h : HANDLE)
| SymRefreshModuleList (hp : HANDLE)
| dumpException (hp : HANDLE) (rec : EXCEPTION_RECORD)
| dumpStack (hp : HANDLE) (ht : rvalue)
| TerminateProcess (hp : HANDLE) (uExitCode : Z)
| SymSetOptions (options : Z)
| InitializeSym (hp : HANDLE) (fInvadeProcess : bool)
| SymRegisterCallback64 (hp : HANDLE)
| SymLoadModuleEx (hp hFile : HANDLE) (BaseOfDll : Z)
| SymUnloadModule64 (hp : HANDLE) (BaseOfDll : Z)
| SymCleanup (hp : HANDLE)
| ReadProcessMemory (hp : HANDLE) (lpBaseAddress : Z) (nSize : nat)
| fputs_stderr (s : option (list Byte.byte))
| ContinueDebugEvent (pid tid status : DWORD)
| exit_program (status : Z).

(** ** loadModule *)

Definition loadModule (ok : bool) (hp hFile : HANDLE) (lpBaseOfDll : Z)
  : list action :=
  [SymLoadModuleEx hp hFile lpBaseOfDll]
  ++ (if ok then [] else [OutputDebug "warning: SymLoadModule64 failed: 0x%08lx\n"])
  ++ (if hFile =? NULL then [] else [CloseHandle hFile]).

(** ** readProcessString *)

(** A cell of a [malloc]ed buffer: a byte, or not yet written. *)
Abbreviation buffer := (list (option Byte.byte)).

Definition NUL : Byte.byte := Byte.x00.

Definition malloc (n : nat) : buffer := replicate n None.

(** The bytes [ReadProcessMemory] copies overwrite the start of the buffer;
    it is given [nSize] and copies no more than that. *)
Definition rpm_write (nSize : nat) (data : list Byte.byte) (buf : buffer) : buffer :=
  let d := take nSize data in
  (Some <$> d) ++ drop (length d) buf.

(** The C string a buffer holds: the bytes before the first NUL; [None] when
    an unwritten cell or the end of the buffer comes first. *)
Fixpoint c_str (buf : buffer) : option (list Byte.byte) :=
  match buf with
  | [] => None
  | None :: _ => None
  | Some b :: rest =>
      if Byte.eqb b NUL then Some []
      else match c_str rest with
           | Some s => Some (b :: s)
           | None => None
           end
  end.

(** [nSize] and [NumberOfBytesRead] are [SIZE_T]. The result is the call made
    and the buffer returned, or [None] for the buffer when the assertion
    fails. *)
Definition readProcessString (reply : RPM_REPLY) (hp : HANDLE)
    (lpBaseAddress : Z) (nSize : nat) : action * option buffer :=
  let lpszBuffer := malloc (nSize + 1) in
  let call := ReadProcessMemory hp lpBaseAddress nSize in
  let lpszBuffer := rpm_write nSize (rpm_data reply) lpszBuffer in
  let NumberOfBytesRead := rpm_NumberOfBytesRead reply in
  let lpszBuffer :=
    if rpm_ok reply then lpszBuffer else <[0%nat := Some NUL]> lpszBuffer in
  if (NumberOfBytesRead <=? nSize)%nat
  then (call, Some (<[NumberOfBytesRead := Some NUL]> lpszBuffer))
  else (call, None).

(** ** The session: the registry and the locals of DebugMainLoop *)

(** [pThreadInfo] is declared in the body of the loop without an
    initialiser, and the exception case reads it without assigning it. By the
    source every such read is of an indeterminate pointer. The model follows
    the compiled code where that is known: the slot keeps, from one iteration
    to the next, the target it was last assigned, [(pid, tid)] for the record
    of thread [tid] of process [pid]. Where the slot was never assigned in
    this call, or its target has since been erased, the pointer is invalid:
    the model gives the read no value, and the handler that makes it ends as
    [Undefined]. *)
Record Session := {
  g_Processes : gmap Z PROCESS_INFO;
  fFinished : bool;
  fBreakpointSignalled : bool;
  fWowBreakpointSignalled : bool;
  pThreadInfo : option (Z * Z)
}.

Definition set_Processes (g : gmap Z PROCESS_INFO) (s : Session) : Session :=
  {| g_Processes := g; fFinished := fFinished s;
     fBreakpointSignalled := fBreakpointSignalled s;
     fWowBreakpointSignalled := fWowBreakpointSignalled s;
     pThreadInfo := pThreadInfo s |}.

Definition set_pThreadInfo (p : option (Z * Z)) (s : Session) : Session :=
  {| g_Processes := g_Processes s; fFinished := fFinished s;
     fBreakpointSignalled := fBreakpointSignalled s;
     fWowBreakpointSignalled := fWowBreakpointSignalled s;
     pThreadInfo := p |}.

Definition set_fFinished (b : bool) (s : Session) : Session :=
  {| g_Processes := g_Processes s; fFinished := b;
     fBreakpointSignalled := fBreakpointSignalled s;
     fWowBreakpointSignalled := fWowBreakpointSignalled s;
     pThreadInfo := pThreadInfo s |}.

Definition set_fBreakpointSignalled (b : bool) (s : Session) : Session :=
  {| g_Processes := g_Processes s; fFinished := fFinished s;
     fBreakpointSignalled := b;
     fWowBreakpointSignalled := fWowBreakpointSignalled s;
     pThreadInfo := pThreadInfo s |}.

Definition set_fWowBreakpointSignalled (b : bool) (s : Session) : Session :=
  {| g_Processes := g_Processes s; fFinished := fFinished s;
     fBreakpointSignalled := fBreakpointSignalled s;
     fWowBreakpointSignalled := b;
     pThreadInfo := pThreadInfo s |}.

(** [pThreadInfo->hThread] in the exception case. The case does not assign
    the pointer, so by the source the value read is indeterminate every time.
    The model follows the compiled code where the outcome is known: while the
    slot points to a record of the registry, as a thread-create or
    process-create of an earlier iteration left it, the read yields the
    handle of that record. Otherwise the read has no value, and the handler
    that makes it ends as [Undefined]. *)
Definition read_pThreadInfo (s : Session) : rvalue :=
  match pThreadInfo s with
  | Some (pid, tid) =>
      match g_Processes s !! pid with
      | Some p =>
          match Threads p !! tid with
          | Some t => Defined (hThread t)
          | None => Indeterminate
          end
      | None => Indeterminate
      end
  | None => Indeterminate
  end.

(** How the handling of one event ends: at a [break] out of the switch, in
    [exit], in a failed [assert], or at a read through an invalid pointer,
    from which on the behaviour is undefined. *)
Inductive control := Break | Exit (status : Z) | Abort | Undefined.

Record Handled := {
  h_session : Session;
  h_actions : list action;
  h_status : DWORD;
  h_control : control
}.

Definition trace_line (opts : DebugOptions) (fmt : string) (args : list Z)
  : list action :=
  if debug_flag opts then [lprintf fmt args] else [].

(** ** case EXCEPTION_DEBUG_EVENT *)

(** The per-thread loop: the test of the [continue], then the call. *)
Definition dump_threads (opts : DebugOptions) (ev : DEBUG_EVENT)
    (ExceptionCode' : Z) (p : PROCESS_INFO) (stale : rvalue) : list action :=
  flat_map
    (fun dwThreadId' =>
       if negb (dwThreadId' =? dwThreadId ev)
          && negb (ExceptionCode' =? STATUS_BREAKPOINT)
          && negb (verbose_flag opts)
       then []
       else [dumpStack (hProcess p) stale])
    (thread_ids (Threads p)).

Arguments dump_threads : simpl never.
Arguments trace_line : simpl never.

(** The per-thread loop comes to a [dumpStack] call, whose argument it reads
    through [pThreadInfo], while that pointer is invalid. *)
Definition undefined_read (stale : rvalue) (dumps : list action) : bool :=
  match dumps with
  | [] => false
  | _ :: _ => match stale with Indeterminate => true | Defined _ => false end
  end.

(** From "Find the process in the process list" to the end of the case. The
    case stops at the first [dumpStack] call when the pointer it reads is
    invalid. *)
Definition exception_capture (opts : DebugOptions) (ev : DEBUG_EVENT)
    (rec : EXCEPTION_RECORD) (dwFirstChance : DWORD) (status : DWORD)
    (s : Session) : Handled :=
  let ExceptionCode' := to_NTSTATUS (ExceptionCode rec) in
  let '(p, g) := subscript_p (dwProcessId ev) (g_Processes s) in
  let s := set_Processes g s in
  let dumps := dump_threads opts ev ExceptionCode' p (read_pThreadInfo s) in
  if undefined_read (read_pThreadInfo s) dumps
  then
    {| h_session := s;
       h_actions :=
         [SymRefreshModuleList (hProcess p); dumpException (hProcess p) rec];
       h_status := status;
       h_control := Undefined |}
  else
    {| h_session := s;
       h_actions :=
         [SymRefreshModuleList (hProcess p); dumpException (hProcess p) rec]
         ++ dumps
         ++ (if dwFirstChance =? 0
             then [TerminateProcess (hProcess p) (to_DWORD ExceptionCode')]
             else []);
       h_status := status;
       h_control := Break |}.

Definition on_exception (opts : DebugOptions) (ev : DEBUG_EVENT)
    (rec : EXCEPTION_RECORD) (dwFirstChance : DWORD) (s : Session) : Handled :=
  let ExceptionCode' := to_NTSTATUS (ExceptionCode rec) in
  let log :=
    trace_line opts "EXCEPTION PID=%lu TID=%lu ExceptionCode=0x%lx dwFirstChance=%lu\r\n"
      [dwProcessId ev; dwThreadId ev; ExceptionCode rec; dwFirstChance] in
  let status := DBG_EXCEPTION_NOT_HANDLED in
  let add (acts : list action) (h : Handled) : Handled :=
    {| h_session := h_session h; h_actions := acts ++ h_actions h;
       h_status := h_status h; h_control := h_control h |} in
  if dwFirstChance =? 0 then add log (exception_capture opts ev rec dwFirstChance status s)
  else
    let signalled :=
      (ExceptionCode rec =? to_DWORD STATUS_BREAKPOINT)
      && negb (fBreakpointSignalled s) in
    let s1 := if signalled then set_fBreakpointSignalled true s else s in
    let signal :=
      if signalled && negb (hEvent opts =? NULL)
      then [SetEvent (hEvent opts); CloseHandle (hEvent opts)] else [] in
    if signalled && negb (breakpoint_flag opts)
    then {| h_session := s1; h_actions := log ++ signal;
            h_status := DBG_CONTINUE; h_control := Break |}
    else
      let wow :=
        (ExceptionCode' =? STATUS_WX86_BREAKPOINT)
        && negb (fWowBreakpointSignalled s1) in
      let s2 := if wow then set_fWowBreakpointSignalled true s1 else s1 in
      let status := if wow then DBG_CONTINUE else status in
      if negb (first_chance opts)
      then {| h_session := s2; h_actions := log ++ signal;
              h_status := status; h_control := Break |}
      else add (log ++ signal) (exception_capture opts ev rec dwFirstChance status s2).

(** ** The other cases of the switch *)

Definition plain (s : Session) (acts : list action) : Handled :=
  {| h_session := s; h_actions := acts; h_status := DBG_CONTINUE;
     h_control := Break |}.

(** [pProcessInfo->Threads[tid].hThread = h], where [pProcessInfo] is
    [&g_Processes[pid]] and [p] the record it points to. *)
Definition store_thread (pid tid : Z) (h : HANDLE) (p : PROCESS_INFO)
    (g : gmap Z PROCESS_INFO) : gmap Z PROCESS_INFO :=
  let '(_, ts) := subscript_t tid (Threads p) in
  <[pid := {| hProcess := hProcess p;
              Threads := <[tid := {| hThread := h |}]> ts |}]> g.

Definition on_create_thread (opts : DebugOptions) (ev : DEBUG_EVENT)
    (hThread' : HANDLE) (s : Session) : Handled :=
  let pid := dwProcessId ev in
  let tid := dwThreadId ev in
  let '(p, g) := subscript_p pid (g_Processes s) in
  let g := store_thread pid tid hThread' p g in
  plain (set_pThreadInfo (Some (pid, tid)) (set_Processes g s))
    (trace_line opts "CREATE_THREAD PID=%lu TID=%lu\r\n" [pid; tid]).

(** [Threads.erase(tid)] on the record of [pid]; a [pThreadInfo] that points
    to the erased record dangles. *)
Definition on_exit_thread (opts : DebugOptions) (ev : DEBUG_EVENT)
    (dwExitCode : DWORD) (s : Session) : Handled :=
  let pid := dwProcessId ev in
  let tid := dwThreadId ev in
  let '(p, g) := subscript_p pid (g_Processes s) in
  let g := <[pid := {| hProcess := hProcess p;
                       Threads := delete tid (Threads p) |}]> g in
  let slot :=
    match pThreadInfo s with
    | Some (pid', tid') =>
        if (pid' =? pid) && (tid' =? tid) then None else Some (pid', tid')
    | None => None
    end in
  plain (set_pThreadInfo slot (set_Processes g s))
    (trace_line opts "EXIT_THREAD PID=%lu TID=%lu dwExitCode=0x%lx\r\n"
       [pid; tid; dwExitCode]).

Definition on_exit_process (opts : DebugOptions) (os : OS_REPLIES)
    (ev : DEBUG_EVENT) (dwExitCode : DWORD) (s : Session) : Handled :=
  let pid := dwProcessId ev in
  let tid := dwThreadId ev in
  let '(p, g) := subscript_p pid (g_Processes s) in
  let hProcess' := hProcess p in
  let abort := dwExitCode =? 3 in
  (* Dump the stack on abort() *)
  let dump :=
    if abort
    then let '(t, _) := subscript_t tid (Threads p) in
         [dumpStack hProcess' (Defined (hThread t))]
    else [] in
  let slot := if abort then Some (pid, tid) else pThreadInfo s in
  (* Remove the process from the process list *)
  let g := delete pid g in
  let slot :=
    match slot with
    | Some (pid', tid') => if pid' =? pid then None else Some (pid', tid')
    | None => None
    end in
  let cleanup :=
    [SymCleanup hProcess']
    ++ (if r_SymCleanup os then []
        else [OutputDebug "SymCleanup failed with 0x%08lx\n"]) in
  let s := set_pThreadInfo slot (set_Processes g s) in
  let s := if bool_decide (g = ∅) then set_fFinished true s else s in
  plain s
    (trace_line opts "EXIT_PROCESS PID=%lu TID=%lu dwExitCode=0x%lx\r\n"
       [pid; tid; dwExitCode]
     ++ dump ++ cleanup).

Definition on_load_dll (opts : DebugOptions) (os : OS_REPLIES)
    (ev : DEBUG_EVENT) (hFile : HANDLE) (lpBaseOfDll : Z) (s : Session)
  : Handled :=
  let '(p, g) := subscript_p (dwProcessId ev) (g_Processes s) in
  plain (set_Processes g s)
    (trace_line opts "LOAD_DLL PID=%lu TID=%lu lpBaseOfDll=%p\r\n"
       [dwProcessId ev; dwThreadId ev; lpBaseOfDll]
     ++ loadModule (r_SymLoadModuleEx os) (hProcess p) hFile lpBaseOfDll).

Definition on_unload_dll (opts : DebugOptions) (ev : DEBUG_EVENT)
    (lpBaseOfDll : Z) (s : Session) : Handled :=
  let '(p, g) := subscript_p (dwProcessId ev) (g_Processes s) in
  plain (set_Processes g s)
    (trace_line opts "UNLOAD_DLL PID=%lu TID=%lu lpBaseOfDll=%p\r\n"
       [dwProcessId ev; dwThreadId ev; lpBaseOfDll]
     ++ [SymUnloadModule64 (hProcess p) lpBaseOfDll]).

Definition on_debug_string (opts : DebugOptions) (os : OS_REPLIES)
    (ev : DEBUG_EVENT) (lpDebugStringData fUnicode nDebugStringLength : Z)
    (s : Session) : Handled :=
  let log :=
    trace_line opts "OUTPUT_DEBUG_STRING PID=%lu TID=%lu\r\n"
      [dwProcessId ev; dwThreadId ev] in
  let '(p, g) := subscript_p (dwProcessId ev) (g_Processes s) in
  let s := set_Processes g s in
  if negb (fUnicode =? 0)
  then {| h_session := s; h_actions := log; h_status := DBG_CONTINUE;
          h_control := Abort |}
  else
    match readProcessString (r_ReadProcessMemory os) (hProcess p)
            lpDebugStringData (Z.to_nat nDebugStringLength) with
    | (call, Some lpDebugStringData') =>
        plain s (log ++ [call; fputs_stderr (c_str lpDebugStringData')])
    | (call, None) =>
        {| h_session := s; h_actions := log ++ [call];
           h_status := DBG_CONTINUE; h_control := Abort |}
    end.

Section Build.

(** Whether the preprocessor symbol is defined in the build. *)
Variable WIN64 : bool.

Definition on_create_process (opts : DebugOptions) (os : OS_REPLIES)
    (ev : DEBUG_EVENT) (hFile hProcess' hThread' : HANDLE)
    (lpBaseOfImage : Z) (s : Session) : Handled :=
  let pid := dwProcessId ev in
  let tid := dwThreadId ev in
  let log := trace_line opts "CREATE_PROCESS PID=%lu TID=%lu\r\n" [pid; tid] in
  let '(p, g) := subscript_p pid (g_Processes s) in
  let p := {| hProcess := hProcess'; Threads := Threads p |} in
  let g := store_thread pid tid hThread' p g in
  let s := set_pThreadInfo (Some (pid, tid)) (set_Processes g s) in
  let dwSymOptions := r_SymGetOptions os in
  let dwSymOptions :=
    Z.lor dwSymOptions
      (Z.lor SYMOPT_UNDNAME (Z.lor SYMOPT_LOAD_LINES SYMOPT_OMAP_FIND_NEAREST)) in
  let dwSymOptions :=
    if debug_flag opts then Z.lor dwSymOptions SYMOPT_DEBUG else dwSymOptions in
  let dwSymOptions :=
    if WIN64 && r_IsWow64Process os
    then Z.lor dwSymOptions SYMOPT_INCLUDE_32BIT_MODULES else dwSymOptions in
  let init := [SymSetOptions dwSymOptions; InitializeSym hProcess' false] in
  if negb (r_InitializeSym os)
  then {| h_session := s;
          h_actions :=
            log ++ init
            ++ [OutputDebug "error: SymInitialize failed: 0x%08lx\n";
                exit_program EXIT_FAILURE];
          h_status := DBG_CONTINUE;
          h_control := Exit EXIT_FAILURE |}
  else
    plain s
      (log ++ init ++ [SymRegisterCallback64 hProcess']
       ++ loadModule (r_SymLoadModuleEx os) hProcess' hFile lpBaseOfImage).

(** The switch on [DebugEvent.dwDebugEventCode]. *)
Definition dispatch (opts : DebugOptions) (os : OS_REPLIES)
    (ev : DEBUG_EVENT) (s : Session) : Handled :=
  match u ev with
  | EXCEPTION_DEBUG_EVENT rec fc => on_exception opts ev rec fc s
  | CREATE_THREAD_DEBUG_EVENT h => on_create_thread opts ev h s
  | CREATE_PROCESS_DEBUG_EVENT hFile hp ht base =>
      on_create_process opts os ev hFile hp ht base s
  | EXIT_THREAD_DEBUG_EVENT code => on_exit_thread opts ev code s
  | EXIT_PROCESS_DEBUG_EVENT code => on_exit_process opts os ev code s
  | LOAD_DLL_DEBUG_EVENT hFile base => on_load_dll opts os ev hFile base s
  | UNLOAD_DLL_DEBUG_EVENT base => on_unload_dll opts ev base s
  | OUTPUT_DEBUG_STRING_EVENT data fUnicode len =>
      on_debug_string opts os ev data fUnicode len s
  | RIP_EVENT =>
      plain s (trace_line opts "RIP PID=%lu TID=%lu\r\n"
                 [dwProcessId ev; dwThreadId ev])
  | OTHER_EVENT code =>
      plain s (trace_line opts "EVENT%lu PID=%lu TID=%lu\r\n"
                 [code; dwProcessId ev; dwThreadId ev])
  end.

(** One pass through the body of the loop after a successful wait: the
    switch, then [ContinueDebugEvent] when the switch was left by [break]. *)
Definition loop_body (opts : DebugOptions) (os : OS_REPLIES)
    (ev : DEBUG_EVENT) (s : Session) : Handled :=
  let h := dispatch opts os ev s in
  match h_control h with
  | Break =>
      {| h_session := h_session h;
         h_actions :=
           h_actions h
           ++ [ContinueDebugEvent (dwProcessId ev) (dwThreadId ev) (h_status h)];
         h_status := h_status h;
         h_control := Break |}
  | _ => h
  end.

(** ** DebugMainLoop *)

(** How a run ends: [DebugMainLoop] returns, the program exits or aborts, or
    the loop is blocked in [WaitForDebugEvent] because no further event
    arrives, or a handler has read through an invalid pointer and the
    behaviour is undefined from there. *)
Inductive Outcome :=
  Returned (b : bool) | Exited (status : Z) | Aborted | Waiting
| UndefinedBehaviour.

(** One iteration: the event the wait delivered ([None] when the wait
    failed) and the calls made. *)
Record Step := { st_event : option DEBUG_EVENT; st_actions : list action }.

Record Run := { outcome : Outcome; final : Session; steps : list Step }.

Definition cons_step (st : Step) (r : Run) : Run :=
  {| outcome := outcome r; final := final r; steps := st :: steps r |}.

(** The while loop over what the successive waits deliver: [None] is a
    failed [WaitForDebugEvent], [Some (ev, os)] an event together with the
    answers of the environment during its handling. *)
Fixpoint loop (opts : DebugOptions)
    (inputs : list (option (DEBUG_EVENT * OS_REPLIES))) (s : Session) : Run :=
  if fFinished s then {| outcome := Returned true; final := s; steps := [] |}
  else
    match inputs with
    | [] => {| outcome := Waiting; final := s; steps := [] |}
    | None :: _ =>
        {| outcome := Returned false; final := s;
           steps := [ {| st_event := None;
                         st_actions := [OutputDebug "WaitForDebugEvent: 0x%08lx"] |} ] |}
    | Some (ev, os) :: rest =>
        let h := loop_body opts os ev s in
        let st := {| st_event := Some ev; st_actions := h_actions h |} in
        match h_control h with
        | Break => cons_step st (loop opts rest (h_session h))
        | Exit status =>
            {| outcome := Exited status; final := h_session h; steps := [st] |}
        | Abort =>
            {| outcome := Aborted; final := h_session h; steps := [st] |}
        | Undefined =>
            {| outcome := UndefinedBehaviour; final := h_session h;
               steps := [st] |}
        end
    end.

(** The locals are initialised at each call; the registry is a global. *)
Definition session_start (g : gmap Z PROCESS_INFO) : Session :=
  {| g_Processes := g; fFinished := false; fBreakpointSignalled := false;
     fWowBreakpointSignalled := false; pThreadInfo := None |}.

Definition DebugMainLoop (opts : DebugOptions)
    (inputs : list (option (DEBUG_EVENT * OS_REPLIES)))
    (g : gmap Z PROCESS_INFO) : Run :=
  loop opts inputs (session_start g).

End Build.


(** ** Observations on events and traces *)

Definition is_exception (ev : DEBUG_EVENT) : bool :=
  match u ev with EXCEPTION_DEBUG_EVENT _ _ => true | _ => false end.

Definition is_exit_process (ev : DEBUG_EVENT) : bool :=
  match u ev with EXIT_PROCESS_DEBUG_EVENT _ => true | _ => false end.

Definition is_exit_thread (ev : DEBUG_EVENT) : bool :=
  match u ev with EXIT_THREAD_DEBUG_EVENT _ => true | _ => false end.

(** An exception reported at first chance whose code is the breakpoint code. *)
Definition is_first_chance_breakpoint (ev : DEBUG_EVENT) : bool :=
  match u ev with
  | EXCEPTION_DEBUG_EVENT rec fc =>
      negb (fc =? 0) && (ExceptionCode rec =? 0x80000003)
  | _ => false
  end.

Definition is_dumpStack (a : action) : bool :=
  match a with dumpStack _ _ => true | _ => false end.

Definition is_dumpException (a : action) : bool :=
  match a with dumpException _ _ => true | _ => false end.


Definition is_ContinueDebugEvent (a : action) : bool :=
  match a with ContinueDebugEvent _ _ _ => true | _ => false end.

(** A diagnostic capture: an exception dump or a stack dump. *)
Definition is_capture (a : action) : bool :=
  is_dumpException a || is_dumpStack a.

(** The number of calls of a kind in a trace. *)
Definition count (f : action → bool) (acts : list action) : nat :=
  length (List.filter f acts).

Arguments count : simpl never.

(** The handler of the event gets as far as its subscript on the registry:
    every thread-create, thread-exit, module-load, module-unload and
    debug-string does; an exception does unless it is reported at first
    chance and is left at one of the two [break]s before the subscript. *)
Definition reaches_lookup (opts : DebugOptions) (s : Session)
    (ev : DEBUG_EVENT) : bool :=
  match u ev with
  | EXCEPTION_DEBUG_EVENT rec fc =>
      (fc =? 0)
      || (first_chance opts
          && negb ((ExceptionCode rec =? to_DWORD STATUS_BREAKPOINT)
                   && negb (fBreakpointSignalled s)
                   && negb (breakpoint_flag opts)))
  | CREATE_THREAD_DEBUG_EVENT _ | EXIT_THREAD_DEBUG_EVENT _
  | LOAD_DLL_DEBUG_EVENT _ _ | UNLOAD_DLL_DEBUG_EVENT _
  | OUTPUT_DEBUG_STRING_EVENT _ _ _ => true
  | _ => false
  end.

(** The two assertions on the way of a debug-string event hold. *)
Definition asserts_hold (os : OS_REPLIES) (ev : DEBUG_EVENT) : bool :=
  match u ev with
  | OUTPUT_DEBUG_STRING_EVENT _ fUnicode nDebugStringLength =>
      (fUnicode =? 0)
      && (rpm_NumberOfBytesRead (r_ReadProcessMemory os)
          <=? Z.to_nat nDebugStringLength)%nat
  | _ => true
  end.

(** The handle the registry holds for a process, and for one of its
    threads; [NULL] where there is no record. *)
Definition process_handle (g : gmap Z PROCESS_INFO) (pid : Z) : HANDLE :=
  match g !! pid with Some p => hProcess p | None => NULL end.

Definition thread_handle (g : gmap Z PROCESS_INFO) (pid tid : Z) : HANDLE :=
  match g !! pid with
  | Some p => match Threads p !! tid with Some t => hThread t | None => NULL end
  | None => NULL
  end.

Definition step_is_first_chance_breakpoint (st : Step) : bool :=
  match st_event st with
  | Some ev => is_first_chance_breakpoint ev
  | None => false
  end.

(** The file handle a notification carries, which [loadModule] closes. *)
Definition event_file (ev : DEBUG_EVENT) : option HANDLE :=
  match u ev with
  | CREATE_PROCESS_DEBUG_EVENT hFile _ _ _ => Some hFile
  | LOAD_DLL_DEBUG_EVENT hFile _ => Some hFile
  | _ => None
  end.

(** A call on the attach signal during the handling of [ev]: a [SetEvent],
    or a [CloseHandle] other than the one of the file handle [ev] carries. *)
Definition is_signal_call (ev : option DEBUG_EVENT) (a : action) : bool :=
  match a with
  | SetEvent _ => true
  | CloseHandle h =>
      match ev with
      | Some ev' =>
          match event_file ev' with
          | Some hFile => negb (h =? hFile)
          | None => true
          end
      | None => true
      end
  | _ => false
  end.

Definition signal_calls (st : Step) : list action :=
  List.filter (is_signal_call (st_event st)) (st_actions st).

(** The handling of the event ends the program: [exit] when the symbol
    provider cannot be initialised for a new process, [abort] when an
    assertion on the way of a debug string fails. *)
Definition ends_program (os : OS_REPLIES) (ev : DEBUG_EVENT) : bool :=
  match u ev with
  | CREATE_PROCESS_DEBUG_EVENT _ _ _ _ => negb (r_InitializeSym os)
  | _ => negb (asserts_hold os ev)
  end.

(** ** Created but not yet exited *)

(** The four lifecycle notifications. *)
Definition is_lifecycle (ev : DEBUG_EVENT) : bool :=
  match u ev with
  | CREATE_PROCESS_DEBUG_EVENT _ _ _ _ | CREATE_THREAD_DEBUG_EVENT _
  | EXIT_THREAD_DEBUG_EVENT _ | EXIT_PROCESS_DEBUG_EVENT _ => true
  | _ => false
  end.

Definition creates_process (pid : Z) (ev : DEBUG_EVENT) : bool :=
  match u ev with
  | CREATE_PROCESS_DEBUG_EVENT _ _ _ _ => dwProcessId ev =? pid
  | _ => false
  end.

Definition exits_process (pid : Z) (ev : DEBUG_EVENT) : bool :=
  match u ev with
  | EXIT_PROCESS_DEBUG_EVENT _ => dwProcessId ev =? pid
  | _ => false
  end.

(** A thread is created by a thread-create, or as the initial thread of a
    process-create. *)
Definition creates_thread (pid tid : Z) (ev : DEBUG_EVENT) : bool :=
  match u ev with
  | CREATE_PROCESS_DEBUG_EVENT _ _ _ _ | CREATE_THREAD_DEBUG_EVENT _ =>
      (dwProcessId ev =? pid) && (dwThreadId ev =? tid)
  | _ => false
  end.

Definition exits_thread (pid tid : Z) (ev : DEBUG_EVENT) : bool :=
  match u ev with
  | EXIT_THREAD_DEBUG_EVENT _ =>
      (dwProcessId ev =? pid) && (dwThreadId ev =? tid)
  | _ => false
  end.

(** Process [pid] has been created and has not exited since: some event
    creates it and no later event is its exit. *)
Fixpoint process_live (pid : Z) (evs : list DEBUG_EVENT) : bool :=
  match evs with
  | [] => false
  | ev :: later =>
      (creates_process pid ev
       && forallb (fun e => negb (exits_process pid e)) later)
      || process_live pid later
  end.

(** Thread [tid] of process [pid] has been created and has not exited since,
    nor has its process. *)
Fixpoint thread_live (pid tid : Z) (evs : list DEBUG_EVENT) : bool :=
  match evs with
  | [] => false
  | ev :: later =>
      (creates_thread pid tid ev
       && forallb (fun e => negb (exits_thread pid tid e)
                            && negb (exits_process pid e)) later)
      || thread_live pid tid later
  end.

(** The registry discipline, for the events [evs] that follow the events
    [before]: lifecycle notifications only; a thread event names a process
    that is live; a process exits only when live. *)
Fixpoint disciplined (before evs : list DEBUG_EVENT) : bool :=
  match evs with
  | [] => true
  | ev :: later =>
      is_lifecycle ev
      && (creates_process (dwProcessId ev) ev
          || process_live (dwProcessId ev) before)
      && disciplined (before ++ [ev]) later
  end.

(** What the registry holds. *)
Definition process_registered (g : gmap Z PROCESS_INFO) (pid : Z) : bool :=
  match g !! pid with Some _ => true | None => false end.

Definition thread_registered (g : gmap Z PROCESS_INFO) (pid tid : Z) : bool :=
  match g !! pid with
  | Some p => match Threads p !! tid with Some _ => true | None => false end
  | None => false
  end.

(** The registry holds the processes and threads that are live after the
    events [evs]. *)
Definition tracks (evs : list DEBUG_EVENT) (s : Session) : Prop :=
  ∀ pid,
    process_registered (g_Processes s) pid = process_live pid evs
    ∧ ∀ tid, thread_registered (g_Processes s) pid tid = thread_live pid tid evs.

Section Replay.

Variable W : bool.
Variable opts : DebugOptions.

(** The notifications handled one after the other, each by one pass
    through the body of the loop; [None] when a handler ends the program. *)
Fixpoint replay (inputs : list (DEBUG_EVENT * OS_REPLIES)) (s : Session)
  : option Session :=
  match inputs with
  | [] => Some s
  | (ev, os) :: rest =>
      let h := loop_body W opts os ev s in
      match h_control h with
      | Break => replay rest (h_session h)
      | _ => None
      end
  end.

End Replay.

(** The threads the registry holds for a process; none where there is no
    record. *)
Definition threads_of (g : gmap Z PROCESS_INFO) (pid : Z) : gmap Z THREAD_INFO :=
  match g !! pid with Some p => Threads p | None => ∅ end.

(** ** Sample inputs *)

Definition quiet_options : DebugOptions :=
  {| breakpoint_flag := false; verbose_flag := false; debug_flag := false;
     first_chance := false; hEvent := NULL |}.

Definition all_fine : OS_REPLIES :=
  {| r_SymGetOptions := 0; r_IsWow64Process := false; r_InitializeSym := true;
     r_SymLoadModuleEx := true; r_SymCleanup := true;
     r_ReadProcessMemory :=
       {| rpm_ok := true; rpm_data := []; rpm_NumberOfBytesRead := 0 |} |}.

Definition event (pid tid : Z) (info : DEBUG_INFO) : DEBUG_EVENT :=
  {| dwProcessId := pid; dwThreadId := tid; u := info |}.

Definition thread_create_11 : DEBUG_EVENT :=
  event 1 11 (CREATE_THREAD_DEBUG_EVENT 111).

Definition process_create_1 : DEBUG_EVENT :=
  event 1 10 (CREATE_PROCESS_DEBUG_EVENT 5 100 110 0x400000).

Definition access_violation : EXCEPTION_RECORD :=
  {| ExceptionCode := 0xC0000005; ExceptionFlags := 0; ExceptionAddress := 0x401000 |}.

Definition breakpoint : EXCEPTION_RECORD :=
  {| ExceptionCode := 0x80000003; ExceptionFlags := 0; ExceptionAddress := 0x401000 |}.

(** Process 1 with its single thread 10. *)
Definition one_thread_registry : gmap Z PROCESS_INFO :=
  {[ 1 := {| hProcess := 100; Threads := {[ 10 := {| hThread := 110 |} ]} |} ]}.

(** Process 1 is created with thread 10, thread 11 is created, then thread
    10 reports an access violation at second chance. *)
Definition two_thread_crash : list (option (DEBUG_EVENT * OS_REPLIES)) :=
  [ Some (process_create_1, all_fine);
    Some (thread_create_11, all_fine);
    Some (event 1 10 (EXCEPTION_DEBUG_EVENT access_violation 0), all_fine) ].

(** Process 1 is created, then its initial thread reports the breakpoint of
    the attach at first chance. *)
Definition attach_then_breakpoint : list (option (DEBUG_EVENT * OS_REPLIES)) :=
  [ Some (process_create_1, all_fine);
    Some (event 1 10 (EXCEPTION_DEBUG_EVENT breakpoint 1), all_fine) ].

Definition signalling_options : DebugOptions :=
  {| breakpoint_flag := false; verbose_flag := false; debug_flag := false;
     first_chance := true; hEvent := 77 |}.

Definition sym_init_fails : OS_REPLIES :=
  {| r_SymGetOptions := 0; r_IsWow64Process := false; r_InitializeSym := false;
     r_SymLoadModuleEx := true; r_SymCleanup := true;
     r_ReadProcessMemory :=
       {| rpm_ok := true; rpm_data := []; rpm_NumberOfBytesRead := 0 |} |}.


(** Process 1 starts with thread 10, gains thread 11, loses thread 10;
    process 2 starts with thread 20 and exits. *)
Definition two_processes : list (DEBUG_EVENT * OS_REPLIES) :=
  [ (process_create_1, all_fine);
    (thread_create_11, all_fine);
    (event 2 20 (CREATE_PROCESS_DEBUG_EVENT 6 200 220 0x400000), all_fine);
    (event 1 10 (EXIT_THREAD_DEBUG_EVENT 0), all_fine);
    (event 2 20 (EXIT_PROCESS_DEBUG_EVENT 0), all_fine) ].

(** ** Further observations *)

(** An exception reported at second chance. *)
Definition is_second_chance (ev : DEBUG_EVENT) : bool :=
  match u ev with
  | EXCEPTION_DEBUG_EVENT _ fc => fc =? 0
  | _ => false
  end.

(** An exception reported at first chance. *)
Definition is_first_chance (ev : DEBUG_EVENT) : bool :=
  match u ev with
  | EXCEPTION_DEBUG_EVENT _ fc => negb (fc =? 0)
  | _ => false
  end.


Definition is_SymCleanup (a : action) : bool :=
  match a with SymCleanup _ => true | _ => false end.

Definition is_CloseHandle (a : action) : bool :=
  match a with CloseHandle _ => true | _ => false end.

Definition is_lprintf (a : action) : bool :=
  match a with lprintf _ _ => true | _ => false end.

(** The first first-chance breakpoint of the session, passed through
    silently: the attach breakpoint when [breakpoint_flag] is off. *)
Definition silently_continued (opts : DebugOptions) (s : Session)
    (ev : DEBUG_EVENT) : bool :=
  is_first_chance_breakpoint ev && negb (fBreakpointSignalled s)
  && negb (breakpoint_flag opts).

(** The exception gets as far as the diagnostic capture: it is reported at
    second chance, or first-chance reporting is on and it is not the attach
    breakpoint passed through. *)
Definition captured (opts : DebugOptions) (s : Session) (ev : DEBUG_EVENT)
  : bool :=
  is_second_chance ev
  || (is_first_chance ev && first_chance opts
      && negb (silently_continued opts s ev)).


(** The test of the [continue] in the per-thread loop lets a thread
    through. *)
Definition dump_selected (opts : DebugOptions) (ev : DEBUG_EVENT) (code : Z)
    (tid : Z) : bool :=
  (tid =? dwThreadId ev) || (code =? STATUS_BREAKPOINT) || verbose_flag opts.

(** A stack dump is due for the exception: the registry holds a thread of
    the reporting process that the per-thread loop lets through. *)
Definition dump_due (opts : DebugOptions) (s : Session) (ev : DEBUG_EVENT)
  : bool :=
  match u ev with
  | EXCEPTION_DEBUG_EVENT rec _ =>
      existsb (dump_selected opts ev (to_NTSTATUS (ExceptionCode rec)))
        (thread_ids (threads_of (g_Processes s) (dwProcessId ev)))
  | _ => false
  end.

(** [pThreadInfo] does not point to a record of the registry. *)
Definition pointer_invalid (s : Session) : bool :=
  match read_pThreadInfo s with Indeterminate => true | Defined _ => false end.

(** The exception is captured and a stack dump is due while [pThreadInfo] is
    invalid: the capture reads through the invalid pointer. *)
Definition undefined_capture (opts : DebugOptions) (s : Session)
    (ev : DEBUG_EVENT) : bool :=
  captured opts s ev && dump_due opts s ev && pointer_invalid s.


Definition is_SymSetOptions (a : action) : bool :=
  match a with SymSetOptions _ => true | _ => false end.

Definition is_SymLoadModuleEx (a : action) : bool :=
  match a with SymLoadModuleEx _ _ _ => true | _ => false end.

Definition is_SymRegisterCallback64 (a : action) : bool :=
  match a with SymRegisterCallback64 _ => true | _ => false end.

Definition is_ReadProcessMemory (a : action) : bool :=
  match a with ReadProcessMemory _ _ _ => true | _ => false end.

Definition is_fputs_stderr (a : action) : bool :=
  match a with fputs_stderr _ => true | _ => false end.

(** The options [SymSetOptions] receives on a process-create. *)
Definition symbol_options (W : bool) (opts : DebugOptions) (os : OS_REPLIES) : Z :=
  let o := Z.lor (r_SymGetOptions os)
             (Z.lor SYMOPT_UNDNAME (Z.lor SYMOPT_LOAD_LINES SYMOPT_OMAP_FIND_NEAREST)) in
  let o := if debug_flag opts then Z.lor o SYMOPT_DEBUG else o in
  if W && r_IsWow64Process os then Z.lor o SYMOPT_INCLUDE_32BIT_MODULES else o.

(** The bytes before the first NUL. *)
Fixpoint until_nul (l : list Byte.byte) : list Byte.byte :=
  match l with
  | [] => []
  | b :: rest => if Byte.eqb b NUL then [] else b :: until_nul rest
  end.

Definition is_SetEvent (a : action) : bool :=
  match a with SetEvent _ => true | _ => false end.

(** The step of a failed wait. *)
Definition failed_wait : Step :=
  {| st_event := None;
     st_actions := [OutputDebug "WaitForDebugEvent: 0x%08lx"] |}.


(** The same options with [debug_flag] set to [d]. *)
Definition with_debug_flag (d : bool) (opts : DebugOptions) : DebugOptions :=
  {| breakpoint_flag := breakpoint_flag opts; verbose_flag := verbose_flag opts;
     debug_flag := d; first_chance := first_chance opts; hEvent := hEvent opts |}.

(** A call with the debug bit of the symbol options disregarded: in the
    options of a [SymSetOptions] call the bit is set, every other bit and
    every other call is kept as it is. *)
Definition ignore_debug_bit (a : action) : action :=
  match a with
  | SymSetOptions o => SymSetOptions (Z.lor o SYMOPT_DEBUG)
  | _ => a
  end.

(** A trace with tracing disregarded: the lines of the event log are
    removed; every other call stays in its place, a [SymSetOptions] call
    with the debug bit of its options disregarded. *)
Definition untraced (acts : list action) : list action :=
  map ignore_debug_bit (List.filter (fun a => negb (is_lprintf a)) acts).

(** ** ObtainSeDebugPrivilege *)

Definition ERROR_INSUFFICIENT_BUFFER : Z := 122.
Definition SE_PRIVILEGE_ENABLED : Z := 0x00000002.
Definition TOKEN_ADJUST_PRIVILEGES : Z := 0x0020.
Definition TOKEN_QUERY : Z := 0x0008.
Definition LMEM_FIXED : Z := 0x0000.
Definition LMEM_ZEROINIT : Z := 0x0040.
Definition ANYSIZE_ARRAY : Z := 1.
Definition sizeof_TOKEN_PRIVILEGES : Z := 16.
Definition sizeof_LUID_AND_ATTRIBUTES : Z := 12.
Definition FALSE : Z := 0.

(** [BOOLEAN] is a byte: the conversion of a [BOOL] keeps the low 8 bits. *)
Definition to_BOOLEAN (z : Z) : Z := z mod 2 ^ 8.

(** The one-entry [TOKEN_PRIVILEGES] the function fills in. *)
Record TOKEN_PRIVILEGES := {
  PrivilegeCount : Z;
  Luid : Z;
  Attributes : Z
}.

(** Where the previous state is to be written: the array on the stack, or
    the block allocated for the retry. *)
Inductive old_state := OldPriv | heap_block (p : Z).

Inductive priv_call :=
| OpenProcessToken (DesiredAccess : Z)
| GetLastError
| priv_OutputDebug (fmt : string)
| LookupPrivilegeValue (lpName : string)
| LocalAlloc (uFlags uBytes : Z)
| AdjustTokenPrivileges (hToken : HANDLE) (DisableAllPrivileges : bool)
    (NewState : TOKEN_PRIVILEGES) (BufferLength : Z) (PreviousState : old_state).

(** The answers of the system: the token ([None] when it cannot be opened),
    the LUID left in [LuidPrivilege], the pointers the two allocations
    return, the values the two adjustments return, the size the first stores
    in [cbNeeded] and the last error after it. *)
Record PRIV_REPLIES := {
  p_OpenProcessToken : option HANDLE;
  p_LuidPrivilege : Z;
  p_NewPrivileges : Z;
  p_Adjust_first : Z;
  p_cbNeeded : Z;
  p_GetLastError : Z;
  p_pbOldPriv : Z;
  p_Adjust_second : Z
}.

Definition ObtainSeDebugPrivilege (r : PRIV_REPLIES) : Z * list priv_call :=
  let open := OpenProcessToken (Z.lor TOKEN_ADJUST_PRIVILEGES TOKEN_QUERY) in
  match p_OpenProcessToken r with
  | None =>
      (FALSE, [open; GetLastError;
               priv_OutputDebug "OpenProcessToken failed with 0x%08lx\n"])
  | Some hToken =>
      let calls :=
        [open; LookupPrivilegeValue "SeDebugPrivilege";
         LocalAlloc LMEM_ZEROINIT
           (sizeof_TOKEN_PRIVILEGES
            + (1 - ANYSIZE_ARRAY) * sizeof_LUID_AND_ATTRIBUTES)] in
      if p_NewPrivileges r =? NULL then (FALSE, calls)
      else
        let NewPrivileges :=
          {| PrivilegeCount := 1; Luid := p_LuidPrivilege r;
             Attributes := SE_PRIVILEGE_ENABLED |} in
        let calls :=
          calls ++ [AdjustTokenPrivileges hToken false NewPrivileges 1024 OldPriv] in
        let fRc := to_BOOLEAN (p_Adjust_first r) in
        let cbNeeded := p_cbNeeded r in
        if fRc =? 0 then
          let calls := calls ++ [GetLastError] in
          if p_GetLastError r =? ERROR_INSUFFICIENT_BUFFER then
            let calls := calls ++ [LocalAlloc LMEM_FIXED cbNeeded] in
            if p_pbOldPriv r =? NULL then (FALSE, calls)
            else
              (to_BOOLEAN (p_Adjust_second r),
               calls ++ [AdjustTokenPrivileges hToken false NewPrivileges
                           cbNeeded (heap_block (p_pbOldPriv r))])
          else (fRc, calls)
        else (fRc, calls)
  end.

Definition is_AdjustTokenPrivileges (c : priv_call) : bool :=
  match c with AdjustTokenPrivileges _ _ _ _ _ => true | _ => false end.

(** The adjustments made, in order. *)
Definition adjustments (calls : list priv_call) : list priv_call :=
  List.filter is_AdjustTokenPrivileges calls.

Definition privilege_replies (first err second : Z) : PRIV_REPLIES :=
  {| p_OpenProcessToken := Some 40; p_LuidPrivilege := 20;
     p_NewPrivileges := 0x5000; p_Adjust_first := first; p_cbNeeded := 2048;
     p_GetLastError := err; p_pbOldPriv := 0x6000; p_Adjust_second := second |}.

(** The options of a run that dumps every thread. *)
Definition dump_all_options : DebugOptions :=
  {| breakpoint_flag := false; verbose_flag := true; debug_flag := false;
     first_chance := false; hEvent := NULL |}.
(** * Properties *)

(** ** readProcessString *)

Lemma length_rpm_write (nSize : nat) (data : list Byte.byte) (buf : buffer) :
  (nSize ≤ length buf)%nat → length (rpm_write nSize data buf) = length buf.
Proof.
  intros Hle. unfold rpm_write.
  rewrite length_app, length_fmap, length_drop.
  cbn zeta. rewrite length_take. lia.
Qed.

Lemma c_str_nul_first (buf : buffer) : c_str (Some NUL :: buf) = Some [].
Proof. reflexivity. Qed.

(** A terminator at index [n] bounds the string by [n]. *)
Lemma c_str_bounded (buf : buffer) :
  ∀ (n : nat) (s : list Byte.byte),
    buf !! n = Some (Some NUL) → c_str buf = Some s → (length s ≤ n)%nat.
Proof.
  induction buf as [|c buf IH]; intros n s Hn Hs; [discriminate|].
  destruct c as [b|]; [|discriminate]. cbn in Hs.
  destruct (Byte.eqb b NUL) eqn:Eb.
  - injection Hs as <-. cbn. lia.
  - destruct n as [|n].
    + cbn in Hn. injection Hn as ->. discriminate.
    + cbn in Hn. destruct (c_str buf) as [s'|] eqn:Es; [|discriminate].
      injection Hs as <-. cbn. specialize (IH n s' Hn eq_refl). lia.
Qed.

(** Bytes without a NUL, then the terminator: the string is those bytes. *)
Lemma c_str_payload (d : list Byte.byte) (rest : buffer) :
  NUL ∉ d → c_str ((Some <$> d) ++ Some NUL :: rest) = Some d.
Proof.
  induction d as [|b d IH]; intros Hnul; [reflexivity|].
  cbn. apply not_elem_of_cons in Hnul as [Hb Hd].
  destruct (Byte.eqb b NUL) eqn:Eb.
  - apply Byte.byte_dec_bl in Eb. congruence.
  - cbn in IH. rewrite (IH Hd). reflexivity.
Qed.

(** C6. Given a process handle, a remote address and a byte length [L],
    [readProcessString] asks [ReadProcessMemory] for [L] bytes. Whenever the
    count the read reports is at most [L], it returns a buffer (no error is
    propagated) of [L + 1] cells holding the NUL terminator at the index of
    the reported count, so the string it holds is never longer than that
    count, nor than [L]; when the read fails the string is empty; when the
    read succeeds and obtains all [L] bytes the buffer is exactly those [L]
    bytes followed by the terminator. *)
Theorem readProcessString_contract (reply : RPM_REPLY) (hp : HANDLE)
    (addr : Z) (L : nat) :
  (rpm_NumberOfBytesRead reply ≤ L)%nat →
  ∃ buf : buffer,
    readProcessString reply hp addr L = (ReadProcessMemory hp addr L, Some buf)
    ∧ length buf = (L + 1)%nat
    ∧ buf !! rpm_NumberOfBytesRead reply = Some (Some NUL)
    ∧ (∀ s, c_str buf = Some s →
            (length s ≤ rpm_NumberOfBytesRead reply ∧ length s ≤ L)%nat)
    ∧ (rpm_ok reply = false → c_str buf = Some [])
    ∧ (rpm_ok reply = true → rpm_NumberOfBytesRead reply = L →
       (L ≤ length (rpm_data reply))%nat →
       buf = (Some <$> take L (rpm_data reply)) ++ [Some NUL]
       ∧ (NUL ∉ take L (rpm_data reply) →
          c_str buf = Some (take L (rpm_data reply)))).
Proof.
  intros Hn. unfold readProcessString.
  apply Nat.leb_le in Hn as Hb. rewrite Hb. eexists. split; [reflexivity|].
  set (n := rpm_NumberOfBytesRead reply) in *.
  set (b0 := rpm_write L (rpm_data reply) (malloc (L + 1))).
  assert (Hl0 : length b0 = (L + 1)%nat).
  { unfold b0, malloc. rewrite length_rpm_write; rewrite length_replicate; lia. }
  set (b1 := if rpm_ok reply then b0 else <[0%nat:=Some NUL]> b0).
  assert (Hl1 : length b1 = (L + 1)%nat).
  { unfold b1. destruct (rpm_ok reply); [done|]. by rewrite length_insert. }
  assert (Hterm : <[n:=Some NUL]> b1 !! n = Some (Some NUL)).
  { apply list_lookup_insert_eq. lia. }
  split; [by rewrite length_insert|]. split; [exact Hterm|].
  split; [|split].
  - intros s Hs. pose proof (c_str_bounded _ _ _ Hterm Hs). lia.
  - intros Hfail. unfold b1. rewrite Hfail.
    destruct b0 as [|c b0']; [cbn in Hl0; lia|].
    destruct n as [|n']; reflexivity.
  - intros Hok HnL Hlen. unfold b1. rewrite Hok.
    assert (Hb0 : b0 = (Some <$> take L (rpm_data reply)) ++ [None]).
    { unfold b0, rpm_write, malloc. cbn zeta. rewrite length_take.
      rewrite Nat.min_l by lia. rewrite drop_replicate.
      replace (L + 1 - L)%nat with 1%nat by lia. reflexivity. }
    assert (Hbuf : <[n:=Some NUL]> b0 = (Some <$> take L (rpm_data reply)) ++ [Some NUL]).
    { rewrite Hb0. rewrite insert_app_r_alt; rewrite length_fmap, length_take; [|lia].
      rewrite Nat.min_l by lia. replace (n - L)%nat with 0%nat by lia. reflexivity. }
    split; [exact Hbuf|].
    intros Hnul. rewrite Hbuf. by apply c_str_payload.
Qed.

(** The contract at a concrete read: three bytes asked, three obtained. *)
Lemma readProcessString_contract_witness :
  ∃ buf : buffer,
    readProcessString
      {| rpm_ok := true; rpm_data := [Byte.x61; Byte.x62; Byte.x63];
         rpm_NumberOfBytesRead := 3 |} 100 4096 3
    = (ReadProcessMemory 100 4096 3, Some buf)
    ∧ buf = [Some Byte.x61; Some Byte.x62; Some Byte.x63; Some NUL].
Proof.
  destruct (readProcessString_contract
              {| rpm_ok := true; rpm_data := [Byte.x61; Byte.x62; Byte.x63];
                 rpm_NumberOfBytesRead := 3 |} 100 4096 3)
    as (buf & Hr & _ & _ & _ & _ & Hfull).
  - cbn. lia.
  - exists buf. split; [exact Hr|].
    destruct Hfull as [Hbuf _]; [reflexivity|reflexivity|cbn; lia|].
    exact Hbuf.
Defined.

(** ** Counting calls *)

Lemma count_nil (f : action → bool) : count f [] = 0%nat.
Proof. reflexivity. Qed.

Lemma count_cons (f : action → bool) (a : action) (l : list action) :
  count f (a :: l) = ((if f a then 1 else 0) + count f l)%nat.
Proof. unfold count. cbn. destruct (f a); reflexivity. Qed.

Lemma count_app (f : action → bool) (l1 l2 : list action) :
  count f (l1 ++ l2) = (count f l1 + count f l2)%nat.
Proof. unfold count. rewrite List.filter_app, length_app. reflexivity. Qed.

Lemma count_zero (f : action → bool) (l : list action) :
  count f l = 0%nat ↔ ∀ a, In a l → f a = false.
Proof.
  induction l as [|x l IH]; [cbn; tauto|].
  rewrite count_cons. split.
  - intros H a [<-|Ha].
    + destruct (f x); [discriminate|reflexivity].
    + apply IH; [destruct (f x); [discriminate|exact H]|exact Ha].
  - intros H. rewrite (H x (or_introl eq_refl)). cbn. apply IH.
    intros a Ha. apply H. by right.
Qed.

Lemma count_trace_line (f : action → bool) (opts : DebugOptions)
    (fmt : string) (args : list Z) :
  (∀ fmt' args', f (lprintf fmt' args') = false) →
  count f (trace_line opts fmt args) = 0%nat.
Proof.
  intros Hf. unfold trace_line. destruct (debug_flag opts); [|reflexivity].
  rewrite count_cons, Hf. reflexivity.
Qed.

(** ** The per-thread dump loop *)

(** Every call of the per-thread loop passes the same thread handle, the one
    read through [pThreadInfo], whichever thread is iterated. *)
Lemma dump_threads_same_handle (opts : DebugOptions) (ev : DEBUG_EVENT)
    (code : Z) (p : PROCESS_INFO) (stale : rvalue) :
  ∀ a, In a (dump_threads opts ev code p stale) →
       a = dumpStack (hProcess p) stale.
Proof.
  intros a Ha. unfold dump_threads in Ha. apply in_flat_map in Ha as (tid & _ & Ha).
  destruct (_ && _); [destruct Ha|].
  destruct Ha as [<-|[]]. reflexivity.
Qed.

Lemma count_dump_threads_other (f : action → bool) (opts : DebugOptions)
    (ev : DEBUG_EVENT) (code : Z) (p : PROCESS_INFO) (stale : rvalue) :
  (∀ hp ht, f (dumpStack hp ht) = false) →
  count f (dump_threads opts ev code p stale) = 0%nat.
Proof.
  intros Hf. apply count_zero. intros a Ha.
  apply dump_threads_same_handle in Ha as ->. apply Hf.
Qed.

Lemma dump_threads_no_threads (opts : DebugOptions) (ev : DEBUG_EVENT)
    (code : Z) (p : PROCESS_INFO) (stale : rvalue) :
  Threads p = ∅ → dump_threads opts ev code p stale = [].
Proof.
  intros Hp. unfold dump_threads, thread_ids. rewrite Hp, map_to_list_empty.
  reflexivity.
Qed.

(** ** What the switch emits *)

Ltac unfold_handlers :=
  unfold dispatch, on_exception, exception_capture, on_create_thread,
    on_create_process, on_exit_thread, on_exit_process, on_load_dll,
    on_unload_dll, on_debug_string, readProcessString, loadModule, plain.

Ltac count_simpl :=
  repeat first
    [ rewrite count_app
    | rewrite count_cons
    | rewrite count_nil
    | rewrite count_trace_line by (intros; reflexivity)
    | rewrite count_dump_threads_other by (intros; reflexivity) ].

(** The resume call is made after the switch, never inside it. *)
Lemma switch_makes_no_resume (W : bool) (opts : DebugOptions) (os : OS_REPLIES)
    (ev : DEBUG_EVENT) (s : Session) :
  count is_ContinueDebugEvent (h_actions (dispatch W opts os ev s)) = 0%nat.
Proof.
  unfold_handlers.
  repeat case_match; simplify_eq; cbn [h_actions]; count_simpl; reflexivity.
Qed.

(** Outside the exception case the status is never assigned. *)
Lemma status_untouched (W : bool) (opts : DebugOptions) (os : OS_REPLIES)
    (ev : DEBUG_EVENT) (s : Session) :
  is_exception ev = false →
  h_status (dispatch W opts os ev s) = DBG_CONTINUE.
Proof.
  unfold is_exception. unfold_handlers.
  repeat case_match; cbn [h_status]; intros; try reflexivity; discriminate.
Qed.

Lemma loop_body_status (W : bool) (opts : DebugOptions) (os : OS_REPLIES)
    (ev : DEBUG_EVENT) (s : Session) :
  h_status (loop_body W opts os ev s) = h_status (dispatch W opts os ev s).
Proof. unfold loop_body. cbv zeta. destruct (h_control _); reflexivity. Qed.

Lemma loop_body_control (W : bool) (opts : DebugOptions) (os : OS_REPLIES)
    (ev : DEBUG_EVENT) (s : Session) :
  h_control (loop_body W opts os ev s) = h_control (dispatch W opts os ev s).
Proof.
  unfold loop_body. cbv zeta.
  destruct (h_control (dispatch W opts os ev s)) eqn:E; cbn; [reflexivity|exact E..].
Qed.

Lemma loop_body_session (W : bool) (opts : DebugOptions) (os : OS_REPLIES)
    (ev : DEBUG_EVENT) (s : Session) :
  h_session (loop_body W opts os ev s) = h_session (dispatch W opts os ev s).
Proof. unfold loop_body. cbv zeta. destruct (h_control _); reflexivity. Qed.

Lemma loop_body_actions_break (W : bool) (opts : DebugOptions) (os : OS_REPLIES)
    (ev : DEBUG_EVENT) (s : Session) :
  h_control (dispatch W opts os ev s) = Break →
  h_actions (loop_body W opts os ev s)
  = h_actions (dispatch W opts os ev s)
    ++ [ContinueDebugEvent (dwProcessId ev) (dwThreadId ev)
          (h_status (dispatch W opts os ev s))].
Proof. unfold loop_body. intros ->. reflexivity. Qed.

Lemma loop_body_actions_stop (W : bool) (opts : DebugOptions) (os : OS_REPLIES)
    (ev : DEBUG_EVENT) (s : Session) :
  h_control (dispatch W opts os ev s) ≠ Break →
  h_actions (loop_body W opts os ev s) = h_actions (dispatch W opts os ev s).
Proof. unfold loop_body. cbv zeta. destruct (h_control _); [congruence|reflexivity..]. Qed.

(** ** C7: the default disposition *)

(** C7, as stated, fails: a thread-create notification is resumed with
    [DBG_CONTINUE], the value [dwContinueStatus] is initialised with, which is
    not [DBG_EXCEPTION_NOT_HANDLED]. *)
Lemma default_disposition_is_not_unhandled :
  h_actions (loop_body true quiet_options all_fine thread_create_11 (session_start ∅))
  = [ContinueDebugEvent 1 11 DBG_CONTINUE]
  ∧ DBG_CONTINUE ≠ DBG_EXCEPTION_NOT_HANDLED.
Proof. split; [vm_compute; reflexivity|discriminate]. Qed.

(** C7, amended. For every notification that is not an exception
    (process-create, thread-create, thread-exit, module-load, module-unload,
    debug-string, process-exit, RIP and unrecognised kinds) the disposition is
    the initial value [DBG_CONTINUE] (continue, handled): whenever the switch
    is left by [break] the resume call is the last call of the iteration, it
    is the only one, and it passes the identifiers of the event and
    [DBG_CONTINUE]; when the handler ends the program instead, no resume call
    is made. *)
Theorem default_disposition (W : bool) (opts : DebugOptions) (os : OS_REPLIES)
    (ev : DEBUG_EVENT) (s : Session) :
  is_exception ev = false →
  let h := loop_body W opts os ev s in
  h_status h = DBG_CONTINUE
  ∧ (h_control h = Break →
     ∃ acts, h_actions h
             = acts ++ [ContinueDebugEvent (dwProcessId ev) (dwThreadId ev) DBG_CONTINUE]
             ∧ count is_ContinueDebugEvent acts = 0%nat)
  ∧ (h_control h ≠ Break → count is_ContinueDebugEvent (h_actions h) = 0%nat).
Proof.
  intros Hne h. subst h.
  rewrite loop_body_status, loop_body_control, (status_untouched _ _ _ _ _ Hne).
  split; [reflexivity|]. split.
  - intros Hb. exists (h_actions (dispatch W opts os ev s)). split.
    + rewrite (loop_body_actions_break _ _ _ _ _ Hb), (status_untouched _ _ _ _ _ Hne).
      reflexivity.
    + apply switch_makes_no_resume.
  - intros Hb. rewrite (loop_body_actions_stop _ _ _ _ _ Hb).
    apply switch_makes_no_resume.
Qed.

Lemma default_disposition_witness :
  h_status (loop_body true quiet_options all_fine thread_create_11 (session_start ∅))
  = DBG_CONTINUE.
Proof.
  exact (proj1 (default_disposition true quiet_options all_fine thread_create_11
                  (session_start ∅) eq_refl)).
Defined.

(** ** C8: thread exit and the dump on abort *)

Lemma subscript_p_absent (pid : Z) (g : gmap Z PROCESS_INFO) :
  g !! pid = None →
  subscript_p pid g = (PROCESS_INFO_default, <[pid := PROCESS_INFO_default]> g).
Proof. intros H. unfold subscript_p. rewrite H. reflexivity. Qed.

Lemma subscript_p_present (pid : Z) (g : gmap Z PROCESS_INFO) (p : PROCESS_INFO) :
  g !! pid = Some p → subscript_p pid g = (p, g).
Proof. intros H. unfold subscript_p. rewrite H. reflexivity. Qed.

(** The subscript yields the handle the registry holds, [NULL] for a record
    it had to insert. *)
Lemma subscript_p_handle (pid : Z) (g : gmap Z PROCESS_INFO) :
  hProcess (fst (subscript_p pid g)) = process_handle g pid.
Proof. unfold subscript_p, process_handle. destruct (g !! pid); reflexivity. Qed.

Lemma subscript_t_handle (pid tid : Z) (g : gmap Z PROCESS_INFO) :
  hThread (fst (subscript_t tid (Threads (fst (subscript_p pid g)))))
  = thread_handle g pid tid.
Proof.
  unfold subscript_p, subscript_t, thread_handle.
  destruct (g !! pid) as [p|]; cbn.
  - destruct (Threads p !! tid); reflexivity.
  - rewrite lookup_empty. reflexivity.
Qed.

(** C8, as stated, fails: thread 10 is the last thread of process 1 and
    exits with the abort code 3; its record is removed and no stack dump is
    attempted, the only call being the resume call. *)
Lemma last_thread_abort_exit_dumps_nothing :
  let h := loop_body true quiet_options all_fine
             (event 1 10 (EXIT_THREAD_DEBUG_EVENT 3))
             (session_start one_thread_registry) in
  h_actions h = [ContinueDebugEvent 1 10 DBG_CONTINUE]
  ∧ count is_dumpStack (h_actions h) = 0%nat
  ∧ g_Processes (h_session h) = {[ 1 := {| hProcess := 100; Threads := ∅ |} ]}.
Proof. vm_compute. repeat split; reflexivity. Qed.

(** C8, amended. A thread-exit notification never attempts a stack dump,
    whatever the exit code and whether or not the thread is the last of its
    process: the handler only removes the ThreadRecord and resumes. The dump
    on the abort code 3 belongs to the process-exit notification: there the
    stack of the reporting thread is dumped, with the handles the registry
    holds, before [SymCleanup] and before the ProcessRecord is gone. *)
Theorem abort_dump_is_on_process_exit (W : bool) (opts : DebugOptions)
    (os : OS_REPLIES) (ev : DEBUG_EVENT) (s : Session) :
  let h := loop_body W opts os ev s in
  let pid := dwProcessId ev in
  let tid := dwThreadId ev in
  (is_exit_thread ev = true →
     count is_dumpStack (h_actions h) = 0%nat
     ∧ h_control h = Break
     ∧ ∃ p', g_Processes (h_session h) !! pid = Some p'
             ∧ Threads p' !! tid = None)
  ∧ (u ev = EXIT_PROCESS_DEBUG_EVENT 3 →
     ∃ pre post,
       h_actions h
       = pre ++ dumpStack (process_handle (g_Processes s) pid)
                  (Defined (thread_handle (g_Processes s) pid tid))
                :: SymCleanup (process_handle (g_Processes s) pid) :: post
       ∧ count is_dumpStack pre = 0%nat
       ∧ count is_dumpStack post = 0%nat
       ∧ g_Processes (h_session h) !! pid = None).
Proof.
  intros h pid tid. subst h pid tid. split.
  - unfold is_exit_thread. intros Hev.
    rewrite loop_body_control, loop_body_session.
    assert (Hb : h_control (dispatch W opts os ev s) = Break).
    { unfold dispatch. destruct (u ev); try discriminate.
      unfold on_exit_thread. destruct (subscript_p _ _). reflexivity. }
    rewrite (loop_body_actions_break _ _ _ _ _ Hb).
    unfold dispatch in *. destruct (u ev); try discriminate.
    unfold on_exit_thread in *. destruct (subscript_p _ _) as [p g].
    cbn. split; [|split; [reflexivity|]].
    + count_simpl. reflexivity.
    + eexists. rewrite lookup_insert_eq. split; [reflexivity|].
      cbn. apply lookup_delete_eq.
  - intros Hev. rewrite loop_body_session.
    assert (Hb : h_control (dispatch W opts os ev s) = Break).
    { unfold dispatch. rewrite Hev. unfold on_exit_process.
      destruct (subscript_p _ _). reflexivity. }
    rewrite (loop_body_actions_break _ _ _ _ _ Hb).
    pose proof (subscript_p_handle (dwProcessId ev) (g_Processes s)) as Hp.
    pose proof (subscript_t_handle (dwProcessId ev) (dwThreadId ev) (g_Processes s)) as Ht.
    unfold dispatch. rewrite Hev. unfold on_exit_process.
    destruct (subscript_p _ _) as [p g]. cbn in Hp, Ht.
    destruct (subscript_t _ _) as [t ts]. cbn in Ht. rewrite <- Hp, <- Ht.
    change (3 =? 3) with true. cbv iota.
    exists (trace_line opts "EXIT_PROCESS PID=%lu TID=%lu dwExitCode=0x%lx\r\n"
              [dwProcessId ev; dwThreadId ev; 3]),
      ((if r_SymCleanup os then []
        else [OutputDebug "SymCleanup failed with 0x%08lx\n"])
       ++ [ContinueDebugEvent (dwProcessId ev) (dwThreadId ev) DBG_CONTINUE]).
    split; [|split; [|split]].
    + unfold plain. cbn [h_actions h_status]. rewrite <- !app_assoc. cbn [app].
      reflexivity.
    + count_simpl. reflexivity.
    + destruct (r_SymCleanup os); count_simpl; reflexivity.
    + destruct (bool_decide _); cbn; apply lookup_delete_eq.
Qed.

Lemma abort_dump_is_on_process_exit_witness :
  count is_dumpStack
    (h_actions (loop_body true quiet_options all_fine
                  (event 1 10 (EXIT_THREAD_DEBUG_EVENT 3))
                  (session_start one_thread_registry))) = 0%nat.
Proof.
  exact (proj1 (proj1 (abort_dump_is_on_process_exit true quiet_options all_fine
                         (event 1 10 (EXIT_THREAD_DEBUG_EVENT 3))
                         (session_start one_thread_registry)) eq_refl)).
Defined.

(** ** C4: the thread handle passed to the stack dump *)

(** C4 fails on the code. Process 1 has thread 10 (handle 110) and thread 11
    (handle 111); thread 10 reports an access violation at second chance.
    The per-thread loop selects thread 10 only, and the stack dump receives
    [pThreadInfo->hThread], which still points to the record of thread 11
    assigned in the thread-create case: handle 111, while the record of the
    iterated thread holds 110. *)
Lemma stale_handle_in_stack_dump :
  let r := DebugMainLoop true quiet_options two_thread_crash ∅ in
  st_actions <$> steps r !! 2%nat
  = Some [ SymRefreshModuleList 100;
           dumpException 100 access_violation;
           dumpStack 100 (Defined 111);
           TerminateProcess 100 0xC0000005;
           ContinueDebugEvent 1 10 DBG_EXCEPTION_NOT_HANDLED ]
  ∧ thread_handle (g_Processes (final r)) 1 10 = 110
  ∧ thread_handle (g_Processes (final r)) 1 11 = 111.
Proof. vm_compute. repeat split; reflexivity. Qed.

(** ** C10: events of a process the registry does not hold *)

(** C10, as stated, fails: an access violation reported at first chance
    while first-chance reporting is off leaves the switch before the
    subscript; no ProcessRecord is inserted for the unknown process 7. *)
Lemma passed_through_exception_inserts_nothing :
  let ev := event 7 70 (EXCEPTION_DEBUG_EVENT access_violation 1) in
  let h := dispatch true quiet_options all_fine ev (session_start ∅) in
  g_Processes (session_start ∅) !! 7 = None
  ∧ g_Processes (h_session h) !! 7 = None
  ∧ h_actions h = []
  ∧ h_control h = Break.
Proof. vm_compute. repeat split; reflexivity. Qed.

Lemma set_Processes_twice (g g' : gmap Z PROCESS_INFO) (s : Session) :
  set_Processes g (set_Processes g' s) = set_Processes g s.
Proof. reflexivity. Qed.

Ltac record_simpl :=
  cbn [g_Processes fFinished fBreakpointSignalled fWowBreakpointSignalled
       pThreadInfo set_Processes set_pThreadInfo set_fFinished
       set_fBreakpointSignalled set_fWowBreakpointSignalled
       negb andb orb] in *.

(** The goals left once a handler has been run on a default record. *)
Ltac default_record :=
  record_simpl; cbn [h_session h_control]; record_simpl;
  split; [reflexivity|];
  split; [|split; [|reflexivity]];
  [ eexists; rewrite lookup_insert_eq; split; [reflexivity|];
    split; [reflexivity|]; intros; apply lookup_empty
  | intros pid' Hne; by rewrite lookup_insert_ne ].

(** C10, amended. For every thread-create, thread-exit, module-load,
    module-unload and debug-string notification, and every exception
    notification that is not left at a [break] before the subscript, whose
    process identifier is not in the registry: the handler does all it would
    do had the registry held a ProcessRecord with a null process handle and
    no thread for that identifier; afterwards the registry holds a record for
    the identifier, with a null process handle and no thread other than the
    one a thread-create has just registered; the other records are
    untouched; and the switch is left by [break], unless the event is a
    debug string on which one of the two assertions fails. *)
Theorem lookup_inserts_default_record (W : bool) (opts : DebugOptions)
    (os : OS_REPLIES) (ev : DEBUG_EVENT) (s : Session) :
  g_Processes s !! dwProcessId ev = None →
  reaches_lookup opts s ev = true →
  let h := dispatch W opts os ev s in
  let s0 :=
    set_Processes (<[dwProcessId ev := PROCESS_INFO_default]> (g_Processes s)) s in
  h = dispatch W opts os ev s0
  ∧ (∃ p', g_Processes (h_session h) !! dwProcessId ev = Some p'
           ∧ hProcess p' = NULL
           ∧ ∀ tid, tid ≠ dwThreadId ev → Threads p' !! tid = None)
  ∧ (∀ pid', pid' ≠ dwProcessId ev →
             g_Processes (h_session h) !! pid' = g_Processes s !! pid')
  ∧ h_control h = (if asserts_hold os ev then Break else Abort).
Proof.
  intros Habs Hreach h s0. subst h s0.
  assert (H0 : subscript_p (dwProcessId ev)
                 (<[dwProcessId ev := PROCESS_INFO_default]> (g_Processes s))
               = (PROCESS_INFO_default,
                  <[dwProcessId ev := PROCESS_INFO_default]> (g_Processes s))).
  { apply subscript_p_present, lookup_insert_eq. }
  pose proof (subscript_p_absent _ _ Habs) as H1.
  unfold reaches_lookup, asserts_hold in *. unfold_handlers.
  destruct (u ev) as [rec fc|ht|?|code| |hFile base|base|data fU len| |];
    try discriminate; record_simpl.
  - (* exception *)
    destruct (fc =? 0), (first_chance opts),
      (ExceptionCode rec =? to_DWORD STATUS_BREAKPOINT),
      (fBreakpointSignalled s), (breakpoint_flag opts);
      record_simpl; try discriminate;
      try destruct ((to_NTSTATUS (ExceptionCode rec) =? STATUS_WX86_BREAKPOINT)
                    && negb (fWowBreakpointSignalled s));
      record_simpl; rewrite H0, H1;
      rewrite ?(dump_threads_no_threads _ _ _ PROCESS_INFO_default) by reflexivity;
      cbn [undefined_read]; default_record.
  - (* thread create *)
    rewrite H0, H1. unfold store_thread. cbn [Threads PROCESS_INFO_default].
    unfold subscript_t. rewrite lookup_empty. cbn [hProcess].
    rewrite !insert_insert_eq. cbn [h_session h_control g_Processes set_Processes set_pThreadInfo].
    split; [reflexivity|]. split; [|split; [|reflexivity]].
    + eexists. rewrite lookup_insert_eq. split; [reflexivity|].
      split; [reflexivity|]. intros tid Hne. cbn [Threads].
      rewrite lookup_insert_ne by congruence.
      apply lookup_empty.
    + intros pid' Hne. by rewrite lookup_insert_ne.
  - (* thread exit *)
    rewrite H0, H1. cbn [Threads hProcess PROCESS_INFO_default].
    rewrite !insert_insert_eq. cbn [h_session h_control g_Processes set_Processes set_pThreadInfo].
    split; [reflexivity|]. split; [|split; [|reflexivity]].
    + eexists. rewrite lookup_insert_eq. split; [reflexivity|].
      split; [reflexivity|]. intros. cbn [Threads].
      rewrite delete_empty. apply lookup_empty.
    + intros pid' Hne. by rewrite lookup_insert_ne.
  - (* module load *)
    rewrite H0, H1. default_record.
  - (* module unload *)
    rewrite H0, H1. default_record.
  - (* debug string *)
    rewrite H0, H1. record_simpl.
    destruct (fU =? 0); cbn [negb andb];
      [destruct (_ <=? _)%nat|]; default_record.
Qed.

Lemma lookup_inserts_default_record_witness :
  let ev := event 7 70 (EXCEPTION_DEBUG_EVENT access_violation 0) in
  ∃ p', g_Processes (h_session (dispatch true quiet_options all_fine ev
                                  (session_start ∅))) !! 7 = Some p'
        ∧ hProcess p' = NULL.
Proof.
  destruct (lookup_inserts_default_record true quiet_options all_fine
              (event 7 70 (EXCEPTION_DEBUG_EVENT access_violation 0))
              (session_start ∅))
    as (_ & (p' & Hp & Hh & _) & _).
  - apply lookup_empty.
  - reflexivity.
  - exists p'. split; [exact Hp|exact Hh].
Defined.

(** ** C2: second-chance exceptions *)

Lemma to_DWORD_to_NTSTATUS (c : Z) :
  0 ≤ c < 2 ^ 32 → to_DWORD (to_NTSTATUS c) = c.
Proof.
  intros Hc. unfold to_DWORD, to_NTSTATUS. rewrite (Z.mod_small c) by lia.
  destruct (c <? 2 ^ 31) eqn:E.
  - apply Z.mod_small. lia.
  - apply Z.ltb_ge in E. symmetry. apply (Z.mod_unique_pos _ _ (-1)); lia.
Qed.

Lemma to_NTSTATUS_is_breakpoint (c : Z) :
  0 ≤ c < 2 ^ 32 → (to_NTSTATUS c =? STATUS_BREAKPOINT) = (c =? 0x80000003).
Proof.
  intros Hc. change STATUS_BREAKPOINT with (-2147483645).
  unfold to_NTSTATUS. rewrite (Z.mod_small c) by lia.
  destruct (c <? 2 ^ 31) eqn:E.
  - apply Z.ltb_lt in E. destruct (c =? 0x80000003) eqn:E'; lia.
  - apply Z.ltb_ge in E. destruct (c =? 0x80000003) eqn:E'; lia.
Qed.

Lemma length_thread_ids (ts : gmap Z THREAD_INFO) :
  length (thread_ids ts) = size ts.
Proof.
  unfold thread_ids. rewrite (Permutation_length (merge_sort_Permutation _ _)).
  rewrite length_map. apply length_map_to_list.
Qed.

Lemma NoDup_thread_ids (ts : gmap Z THREAD_INFO) : NoDup (thread_ids ts).
Proof.
  unfold thread_ids. rewrite merge_sort_Permutation.
  apply NoDup_fst_map_to_list.
Qed.

Lemma elem_of_thread_ids (ts : gmap Z THREAD_INFO) (tid : Z) :
  tid ∈ thread_ids ts ↔ is_Some (ts !! tid).
Proof.
  unfold thread_ids. rewrite merge_sort_Permutation.
  change (map fst (map_to_list ts)) with ((map_to_list ts).*1).
  rewrite list_elem_of_fmap. split.
  - intros ([k t] & -> & Hin). apply elem_of_map_to_list in Hin. eauto.
  - intros [t Ht]. exists (tid, t). split; [reflexivity|].
    by apply elem_of_map_to_list.
Qed.

(** One call per iterated thread that passes the test of the [continue]. *)
Lemma count_dump_threads (opts : DebugOptions) (ev : DEBUG_EVENT) (code : Z)
    (p : PROCESS_INFO) (stale : rvalue) :
  count is_dumpStack (dump_threads opts ev code p stale)
  = length (List.filter
              (fun t => (t =? dwThreadId ev) || (code =? STATUS_BREAKPOINT)
                        || verbose_flag opts)
              (thread_ids (Threads p))).
Proof.
  unfold dump_threads. induction (thread_ids (Threads p)) as [|t l IH];
    [reflexivity|].
  cbn [flat_map List.filter]. rewrite count_app, IH.
  destruct (t =? dwThreadId ev), (code =? STATUS_BREAKPOINT), (verbose_flag opts);
    reflexivity.
Qed.

Lemma length_filter_all {A} (f : A → bool) (l : list A) :
  (∀ x, f x = true) → length (List.filter f l) = length l.
Proof.
  intros Hf. induction l as [|x l IH]; [reflexivity|].
  cbn. rewrite Hf. cbn. by rewrite IH.
Qed.

Lemma length_filter_eqb (tid : Z) (l : list Z) :
  NoDup l →
  length (List.filter (fun t => t =? tid) l)
  = if bool_decide (tid ∈ l) then 1%nat else 0%nat.
Proof.
  induction 1 as [|x l Hx Hnd IH]; [reflexivity|].
  cbn [List.filter]. destruct (x =? tid) eqn:E.
  - apply Z.eqb_eq in E as ->. cbn [length]. rewrite IH.
    rewrite (bool_decide_eq_false_2 _ Hx).
    rewrite bool_decide_eq_true_2 by left. reflexivity.
  - apply Z.eqb_neq in E. rewrite IH.
    apply (f_equal (fun b : bool => if b then 1%nat else 0%nat)).
    apply bool_decide_ext. rewrite elem_of_cons.
    split; [intros Hin; by right|intros [Heq|Hin]; [congruence|exact Hin]].
Qed.

(** C2 fails on the code. With dumpAllThreads set, process 1 has thread 10
    (handle 110) and thread 11 (handle 111), and thread 10 reports an access
    violation at second chance: the exception record is dumped once and the
    process terminated once with the exception code, but the two stack dumps
    both receive handle 111, read through the [pThreadInfo] left by the
    thread-create case, so the stack of thread 11 is dumped twice and that of
    the faulting thread 10 not at all. In a session whose [pThreadInfo] has
    not been assigned (the registry holds the process from before the call)
    the read is made through an invalid pointer: the case stops before any
    stack dump and before [TerminateProcess]. *)
Lemma second_chance_dumps_miss_their_threads :
  let r := DebugMainLoop true dump_all_options two_thread_crash ∅ in
  let h := loop_body true quiet_options all_fine
             (event 1 10 (EXCEPTION_DEBUG_EVENT access_violation 0))
             (session_start one_thread_registry) in
  st_actions <$> steps r !! 2%nat
  = Some [ SymRefreshModuleList 100;
           dumpException 100 access_violation;
           dumpStack 100 (Defined 111);
           dumpStack 100 (Defined 111);
           TerminateProcess 100 0xC0000005;
           ContinueDebugEvent 1 10 DBG_EXCEPTION_NOT_HANDLED ]
  ∧ thread_handle (g_Processes (final r)) 1 10 = 110
  ∧ thread_handle (g_Processes (final r)) 1 11 = 111
  ∧ h_control h = Undefined
  ∧ h_actions h = [SymRefreshModuleList 100; dumpException 100 access_violation].
Proof. vm_compute. repeat split; reflexivity. Qed.

(** ** The loop, one iteration at a time *)

Section Loop.

Variable W : bool.
Variable opts : DebugOptions.

Lemma loop_finished (inputs : list (option (DEBUG_EVENT * OS_REPLIES)))
    (s : Session) :
  fFinished s = true →
  loop W opts inputs s = {| outcome := Returned true; final := s; steps := [] |}.
Proof. intros H. destruct inputs as [|[[ev os]|] rest]; cbn; by rewrite H. Qed.

Lemma loop_cons (ev : DEBUG_EVENT) (os : OS_REPLIES)
    (rest : list (option (DEBUG_EVENT * OS_REPLIES))) (s : Session) :
  fFinished s = false →
  loop W opts (Some (ev, os) :: rest) s
  = let h := loop_body W opts os ev s in
    let st := {| st_event := Some ev; st_actions := h_actions h |} in
    match h_control h with
    | Break => cons_step st (loop W opts rest (h_session h))
    | Exit status =>
        {| outcome := Exited status; final := h_session h; steps := [st] |}
    | Abort => {| outcome := Aborted; final := h_session h; steps := [st] |}
    | Undefined =>
        {| outcome := UndefinedBehaviour; final := h_session h; steps := [st] |}
    end.
Proof. intros H. cbn. by rewrite H. Qed.

(** The first step of a run and the steps after it. *)
Lemma loop_steps_inv (inputs : list (option (DEBUG_EVENT * OS_REPLIES)))
    (s : Session) (st : Step) (more : list Step) :
  steps (loop W opts inputs s) = st :: more →
  (st = {| st_event := None;
            st_actions := [OutputDebug "WaitForDebugEvent: 0x%08lx"] |}
   ∧ more = [])
  ∨ ∃ ev os rest,
      inputs = Some (ev, os) :: rest
      ∧ fFinished s = false
      ∧ st = {| st_event := Some ev;
                st_actions := h_actions (loop_body W opts os ev s) |}
      ∧ (more = [] ∨ more = steps (loop W opts rest
                                     (h_session (loop_body W opts os ev s)))).
Proof.
  destruct (fFinished s) eqn:Hf; [by rewrite loop_finished|].
  destruct inputs as [|[[ev os]|] rest].
  - cbn. by rewrite Hf.
  - rewrite (loop_cons _ _ _ _ Hf). cbv zeta. intros H. right.
    exists ev, os, rest. split; [reflexivity|]. split; [reflexivity|].
    destruct (h_control (loop_body W opts os ev s)); cbn in H;
      injection H as <- <-; eauto.
  - cbn. rewrite Hf. cbn. intros H. injection H as <- <-. by left.
Qed.

End Loop.

(** ** The attach breakpoint: C3 and C9 *)

Lemma breakpoint_code : to_DWORD STATUS_BREAKPOINT = 0x80000003.
Proof. reflexivity. Qed.

(** [fBreakpointSignalled] is set by the first-chance breakpoints, and by
    nothing else. *)
Lemma signalled_after (W : bool) (opts : DebugOptions) (os : OS_REPLIES)
    (ev : DEBUG_EVENT) (s : Session) :
  fBreakpointSignalled (h_session (loop_body W opts os ev s))
  = fBreakpointSignalled s || is_first_chance_breakpoint ev.
Proof.
  rewrite loop_body_session. unfold is_first_chance_breakpoint.
  unfold_handlers. rewrite breakpoint_code.
  destruct (u ev) as [rec fc| | | | | | | | |];
    repeat case_match; simplify_eq; cbn;
    repeat match goal with
           | H : _ && _ = true |- _ => apply andb_true_iff in H as [? ?]
           | H : negb _ = true |- _ => apply negb_true_iff in H
           | H : negb _ = false |- _ => apply negb_false_iff in H
           end;
    try (destruct (fBreakpointSignalled s); cbn in *; congruence);
    try (destruct (fBreakpointSignalled s), (ExceptionCode rec =? _);
         cbn in *; congruence).
Qed.

(** The first first-chance breakpoint of a session is handled with
    [fBreakpointSignalled] still false. *)
Lemma first_breakpoint_state (W : bool) (opts : DebugOptions) :
  ∀ (pre : list Step) (inputs : list (option (DEBUG_EVENT * OS_REPLIES)))
    (s : Session) (st : Step) (post : list Step),
    fBreakpointSignalled s = false →
    steps (loop W opts inputs s) = pre ++ st :: post →
    Forall (fun st' => step_is_first_chance_breakpoint st' = false) pre →
    step_is_first_chance_breakpoint st = true →
    ∃ ev os rest s',
      fBreakpointSignalled s' = false
      ∧ is_first_chance_breakpoint ev = true
      ∧ st = {| st_event := Some ev;
                st_actions := h_actions (loop_body W opts os ev s') |}
      ∧ (post = [] ∨ post = steps (loop W opts rest
                                     (h_session (loop_body W opts os ev s')))).
Proof.
  induction pre as [|st0 pre IH]; intros inputs s st post Hs Hsteps Hpre Hst.
  - cbn in Hsteps. apply loop_steps_inv in Hsteps as [[Hn _]|Hsome].
    + by subst st.
    + destruct Hsome as (ev & os & rest & -> & Hf & -> & Hpost).
      exists ev, os, rest, s. by repeat split.
  - cbn in Hsteps. apply loop_steps_inv in Hsteps as [[_ Hn]|Hsome].
    + by destruct pre.
    + destruct Hsome as (ev & os & rest & -> & Hf & -> & [Hmore|Hmore]).
      * by destruct pre.
      * apply Forall_cons in Hpre as [Hst0 Hpre].
        unfold step_is_first_chance_breakpoint in Hst0. cbn in Hst0.
        apply (IH rest (h_session (loop_body W opts os ev s)) st post);
          [|by symmetry|done|done].
        rewrite signalled_after, Hs, Hst0. reflexivity.
Qed.

Lemma filter_nil_of_count (f : action → bool) (l : list action) :
  count f l = 0%nat → List.filter f l = [].
Proof. unfold count. apply nil_length_inv. Qed.

Lemma filter_trace_line (f : action → bool) (opts : DebugOptions)
    (fmt : string) (args : list Z) :
  (∀ fmt' args', f (lprintf fmt' args') = false) →
  List.filter f (trace_line opts fmt args) = [].
Proof. intros Hf. by apply filter_nil_of_count, count_trace_line. Qed.

Lemma filter_dump_threads (f : action → bool) (opts : DebugOptions)
    (ev : DEBUG_EVENT) (code : Z) (p : PROCESS_INFO) (stale : rvalue) :
  (∀ hp ht, f (dumpStack hp ht) = false) →
  List.filter f (dump_threads opts ev code p stale) = [].
Proof. intros Hf. by apply filter_nil_of_count, count_dump_threads_other. Qed.

Ltac filter_simpl :=
  repeat first
    [ rewrite List.filter_app
    | rewrite filter_trace_line by (intros; reflexivity)
    | rewrite filter_dump_threads by (intros; reflexivity) ].

(** The calls one iteration makes on the attach signal: the pair
    [SetEvent], [CloseHandle] on the first first-chance breakpoint when a
    handle is configured, and none otherwise. *)
Lemma signal_calls_of_iteration (W : bool) (opts : DebugOptions)
    (os : OS_REPLIES) (ev : DEBUG_EVENT) (s : Session) :
  List.filter (is_signal_call (Some ev)) (h_actions (loop_body W opts os ev s))
  = if is_first_chance_breakpoint ev && negb (fBreakpointSignalled s)
       && negb (hEvent opts =? NULL)
    then [SetEvent (hEvent opts); CloseHandle (hEvent opts)]
    else [].
Proof.
  assert (Hbody :
    List.filter (is_signal_call (Some ev)) (h_actions (loop_body W opts os ev s))
    = List.filter (is_signal_call (Some ev)) (h_actions (dispatch W opts os ev s))).
  { destruct (h_control (dispatch W opts os ev s)) eqn:Hc.
    - rewrite (loop_body_actions_break _ _ _ _ _ Hc), List.filter_app.
      cbn. apply app_nil_r.
    - rewrite loop_body_actions_stop; [reflexivity|congruence].
    - rewrite loop_body_actions_stop; [reflexivity|congruence].
    - rewrite loop_body_actions_stop; [reflexivity|congruence]. }
  rewrite Hbody. clear Hbody.
  destruct ev as [pid tid info]. unfold is_first_chance_breakpoint.
  unfold dispatch. cbn [u].
  destruct info as [rec fc|ht|hFile hp ht base|code|code|hFile base|base
                   |data fU len| |code].
  - unfold on_exception, exception_capture. rewrite breakpoint_code.
    destruct (fc =? 0), (ExceptionCode rec =? 0x80000003),
      (fBreakpointSignalled s), (hEvent opts =? NULL), (breakpoint_flag opts),
      (first_chance opts); cbn [negb andb orb];
      repeat match goal with
             | |- context [if ?b && negb ?c then _ else _] =>
                 destruct (b && negb c)
             end;
      cbv iota;
      repeat match goal with
             | |- context [subscript_p ?a ?b] => destruct (subscript_p a b)
             end;
      repeat match goal with
             | |- context [undefined_read ?a ?b] => destruct (undefined_read a b)
             end;
      cbn [h_actions]; filter_simpl; reflexivity.
  - unfold on_create_thread. destruct (subscript_p _ _).
    cbn [h_actions plain andb]. filter_simpl. reflexivity.
  - unfold on_create_process, loadModule. destruct (subscript_p _ _).
    destruct (negb (r_InitializeSym os)), (r_SymLoadModuleEx os), (hFile =? NULL);
      cbn [h_actions plain andb]; filter_simpl;
      cbn [List.filter is_signal_call event_file u app];
      rewrite ?Z.eqb_refl; reflexivity.
  - unfold on_exit_thread. destruct (subscript_p _ _).
    cbn [h_actions plain andb]. filter_simpl. reflexivity.
  - unfold on_exit_process. destruct (subscript_p _ _).
    destruct (code =? 3), (r_SymCleanup os);
      repeat match goal with
             | |- context [subscript_t ?a ?b] => destruct (subscript_t a b)
             end;
      cbn [h_actions plain andb]; filter_simpl; reflexivity.
  - unfold on_load_dll, loadModule. destruct (subscript_p _ _).
    destruct (r_SymLoadModuleEx os), (hFile =? NULL);
      cbn [h_actions plain andb]; filter_simpl;
      cbn [List.filter is_signal_call event_file u app];
      rewrite ?Z.eqb_refl; reflexivity.
  - unfold on_unload_dll. destruct (subscript_p _ _).
    cbn [h_actions plain andb]. filter_simpl. reflexivity.
  - unfold on_debug_string, readProcessString. destruct (subscript_p _ _).
    destruct (negb (fU =? 0)); [|destruct (_ <=? _)%nat];
      cbn [h_actions plain andb]; filter_simpl; reflexivity.
  - cbn [h_actions plain andb]. filter_simpl. reflexivity.
  - cbn [h_actions plain andb]. filter_simpl. reflexivity.
Qed.

(** With [captureAttachBreakpoint] off, the first first-chance breakpoint is
    continued as handled, and neither dumped nor reported. *)
Lemma attach_breakpoint_silent (W : bool) (opts : DebugOptions)
    (os : OS_REPLIES) (ev : DEBUG_EVENT) (s : Session) :
  breakpoint_flag opts = false →
  fBreakpointSignalled s = false →
  is_first_chance_breakpoint ev = true →
  ∃ acts,
    h_actions (loop_body W opts os ev s)
    = acts ++ [ContinueDebugEvent (dwProcessId ev) (dwThreadId ev) DBG_CONTINUE]
    ∧ count is_ContinueDebugEvent acts = 0%nat
    ∧ count is_capture acts = 0%nat.
Proof.
  intros Hflag Hs Hbp. unfold is_first_chance_breakpoint in Hbp.
  destruct (u ev) as [rec fc| | | | | | | | |] eqn:Hu; try discriminate.
  apply andb_true_iff in Hbp as [Hfc Hcode]. apply negb_true_iff in Hfc.
  assert (Hd : dispatch W opts os ev s
               = {| h_session := set_fBreakpointSignalled true s;
                    h_actions :=
                      trace_line opts
                        "EXCEPTION PID=%lu TID=%lu ExceptionCode=0x%lx dwFirstChance=%lu\r\n"
                        [dwProcessId ev; dwThreadId ev; ExceptionCode rec; fc]
                      ++ (if negb (hEvent opts =? NULL)
                          then [SetEvent (hEvent opts); CloseHandle (hEvent opts)]
                          else []);
                    h_status := DBG_CONTINUE; h_control := Break |}).
  { unfold dispatch. rewrite Hu. unfold on_exception.
    rewrite Hfc, breakpoint_code, Hcode, Hs, Hflag. reflexivity. }
  eexists. rewrite loop_body_actions_break by (by rewrite Hd).
  rewrite Hd. cbn [h_actions h_status]. split; [reflexivity|].
  destruct (negb (hEvent opts =? NULL)); split; count_simpl; reflexivity.
Qed.

(** C3. With [captureAttachBreakpoint] false, in every session (whatever
    the registry holds and whichever process reports) the iteration that
    handles the first first-chance breakpoint resumes with [DBG_CONTINUE]
    (continue, handled), that resume call being its last call and its only
    one, and makes no diagnostic capture: no [dumpException] and no
    [dumpStack]. *)
Theorem first_breakpoint_passes_silently (W : bool) (opts : DebugOptions)
    (inputs : list (option (DEBUG_EVENT * OS_REPLIES)))
    (g : gmap Z PROCESS_INFO) (pre : list Step) (st : Step) (post : list Step) :
  breakpoint_flag opts = false →
  steps (DebugMainLoop W opts inputs g) = pre ++ st :: post →
  Forall (fun st' => step_is_first_chance_breakpoint st' = false) pre →
  step_is_first_chance_breakpoint st = true →
  ∃ ev acts,
    st_event st = Some ev
    ∧ st_actions st
      = acts ++ [ContinueDebugEvent (dwProcessId ev) (dwThreadId ev) DBG_CONTINUE]
    ∧ count is_ContinueDebugEvent acts = 0%nat
    ∧ count is_capture acts = 0%nat.
Proof.
  intros Hflag Hsteps Hpre Hst.
  destruct (first_breakpoint_state W opts pre inputs (session_start g) st post
              eq_refl Hsteps Hpre Hst)
    as (ev & os & rest & s' & Hs' & Hbp & -> & _).
  destruct (attach_breakpoint_silent W opts os ev s' Hflag Hs' Hbp)
    as (acts & Hacts & Hc & Hd).
  exists ev, acts. by repeat split.
Qed.

Lemma first_breakpoint_passes_silently_witness :
  ∃ ev acts,
    Some ev = Some (event 1 10 (EXCEPTION_DEBUG_EVENT breakpoint 1))
    ∧ [ContinueDebugEvent 1 10 DBG_CONTINUE]
      = acts ++ [ContinueDebugEvent (dwProcessId ev) (dwThreadId ev) DBG_CONTINUE]
    ∧ count is_capture acts = 0%nat.
Proof.
  destruct (first_breakpoint_passes_silently true quiet_options
              attach_then_breakpoint ∅
              (take 1 (steps (DebugMainLoop true quiet_options attach_then_breakpoint ∅)))
              {| st_event := Some (event 1 10 (EXCEPTION_DEBUG_EVENT breakpoint 1));
                 st_actions := [ContinueDebugEvent 1 10 DBG_CONTINUE] |}
              [])
    as (ev & acts & He & Ha & _ & Hc).
  - reflexivity.
  - vm_compute. reflexivity.
  - vm_compute. repeat constructor.
  - reflexivity.
  - exists ev, acts. cbn in He, Ha. by repeat split.
Defined.

(** No call on the attach signal while no first-chance breakpoint is
    handled, and none once [fBreakpointSignalled] is set. *)
Lemma signal_calls_of_run (W : bool) (opts : DebugOptions) :
  ∀ (sts : list Step) (inputs : list (option (DEBUG_EVENT * OS_REPLIES)))
    (s : Session) (more : list Step),
    steps (loop W opts inputs s) = sts ++ more →
    fBreakpointSignalled s = true
    ∨ Forall (fun st' => step_is_first_chance_breakpoint st' = false) sts →
    Forall (fun st' => signal_calls st' = []) sts.
Proof.
  induction sts as [|st sts IH]; intros inputs s more Hsteps Hq; [constructor|].
  cbn in Hsteps. apply loop_steps_inv in Hsteps as [[-> Hmore]|Hsome].
  - destruct sts; [|discriminate]. by repeat constructor.
  - destruct Hsome as (ev & os & rest & -> & Hf & -> & Hmore).
    assert (Hquiet : is_first_chance_breakpoint ev && negb (fBreakpointSignalled s)
                     = false).
    { destruct Hq as [->|Hq]; [by rewrite andb_false_r|].
      apply Forall_cons in Hq as [Hq _].
      unfold step_is_first_chance_breakpoint in Hq. cbn in Hq. by rewrite Hq. }
    constructor.
    + unfold signal_calls. cbn [st_event st_actions].
      rewrite signal_calls_of_iteration, Hquiet. reflexivity.
    + destruct Hmore as [Hmore|Hmore]; [by destruct sts|].
      apply (IH rest (h_session (loop_body W opts os ev s)) more); [done|].
      rewrite signalled_after.
      destruct Hq as [->|Hq]; [by left|].
      apply Forall_cons in Hq as [_ Hq]. by right.
Qed.

(** C9. In a session with a configured attach signal ([hEvent] not null),
    the iteration that handles the first first-chance breakpoint makes
    exactly one [SetEvent] call and then exactly one [CloseHandle] call, both
    on [hEvent]; no iteration before it and no iteration after it makes any
    call on the attach signal (the only [CloseHandle] calls elsewhere are
    those of [loadModule] on the file handle the notification carried). A
    session without a first-chance breakpoint makes no call on it at all. *)
Theorem attach_signal_once (W : bool) (opts : DebugOptions)
    (inputs : list (option (DEBUG_EVENT * OS_REPLIES)))
    (g : gmap Z PROCESS_INFO) :
  hEvent opts ≠ NULL →
  let r := DebugMainLoop W opts inputs g in
  (∀ pre st post,
     steps r = pre ++ st :: post →
     Forall (fun st' => step_is_first_chance_breakpoint st' = false) pre →
     step_is_first_chance_breakpoint st = true →
     signal_calls st = [SetEvent (hEvent opts); CloseHandle (hEvent opts)]
     ∧ Forall (fun st' => signal_calls st' = []) pre
     ∧ Forall (fun st' => signal_calls st' = []) post)
  ∧ (Forall (fun st' => step_is_first_chance_breakpoint st' = false) (steps r) →
     Forall (fun st' => signal_calls st' = []) (steps r)).
Proof.
  intros Hev r. subst r. split.
  - intros pre st post Hsteps Hpre Hst.
    pose proof (signal_calls_of_run W opts pre inputs (session_start g)
                  (st :: post) Hsteps (or_intror Hpre)) as Hquiet.
    destruct (first_breakpoint_state W opts pre inputs (session_start g) st post
                eq_refl Hsteps Hpre Hst)
      as (ev & os & rest & s' & Hs' & Hbp & -> & Hpost).
    split; [|split; [exact Hquiet|]].
    + unfold signal_calls. cbn [st_event st_actions].
      rewrite signal_calls_of_iteration, Hbp, Hs'.
      apply Z.eqb_neq in Hev. rewrite Hev. reflexivity.
    + destruct Hpost as [Hpost|Hpost]; subst post; [constructor|].
      apply (signal_calls_of_run W opts _ rest
               (h_session (loop_body W opts os ev s')) []);
        [by rewrite app_nil_r|].
      left. rewrite signalled_after, Hbp. apply orb_true_r.
  - intros Hnone.
    apply (signal_calls_of_run W opts _ inputs (session_start g) []);
      [by rewrite app_nil_r|by right].
Qed.

Lemma attach_signal_once_witness :
  let st := {| st_event := Some (event 1 10 (EXCEPTION_DEBUG_EVENT breakpoint 1));
               st_actions := [SetEvent 77; CloseHandle 77;
                              ContinueDebugEvent 1 10 DBG_CONTINUE] |} in
  steps (DebugMainLoop true signalling_options attach_then_breakpoint ∅) !! 1%nat
  = Some st
  ∧ signal_calls st = [SetEvent (hEvent signalling_options);
                       CloseHandle (hEvent signalling_options)].
Proof.
  split; [vm_compute; reflexivity|].
  destruct (attach_signal_once true signalling_options attach_then_breakpoint ∅)
    as [Hfirst _]; [discriminate|].
  destruct (Hfirst
              (take 1 (steps (DebugMainLoop true signalling_options
                                attach_then_breakpoint ∅)))
              {| st_event := Some (event 1 10 (EXCEPTION_DEBUG_EVENT breakpoint 1));
                 st_actions := [SetEvent 77; CloseHandle 77;
                                ContinueDebugEvent 1 10 DBG_CONTINUE] |}
              [])
    as (Hst & _ & _).
  - vm_compute. reflexivity.
  - vm_compute. repeat constructor.
  - reflexivity.
  - exact Hst.
Defined.

(** ** C1: when the loop ends *)

(** The record found or inserted by the subscript, in terms of the registry. *)
Lemma subscript_p_threads (pid : Z) (g : gmap Z PROCESS_INFO) :
  Threads (fst (subscript_p pid g)) = threads_of g pid.
Proof. unfold subscript_p, threads_of. destruct (g !! pid); reflexivity. Qed.

(** The subscript of the exception case does not make [pThreadInfo] valid or
    invalid: a record it inserts has no thread. *)
Lemma read_pThreadInfo_subscript (pid : Z) (s : Session) :
  read_pThreadInfo (set_Processes (snd (subscript_p pid (g_Processes s))) s)
  = read_pThreadInfo s.
Proof.
  unfold read_pThreadInfo. cbn [pThreadInfo g_Processes set_Processes].
  destruct (pThreadInfo s) as [[pid' tid']|]; [|reflexivity].
  unfold subscript_p. destruct (g_Processes s !! pid) eqn:Hg; [reflexivity|].
  cbn [snd]. destruct (decide (pid = pid')) as [<-|Hne].
  - rewrite lookup_insert_eq, Hg. cbn. by rewrite lookup_empty.
  - by rewrite lookup_insert_ne.
Qed.

(** The per-thread loop reads through an invalid pointer exactly when the
    pointer is invalid and a thread passes its test. *)
Lemma undefined_read_dump_threads (opts : DebugOptions) (ev : DEBUG_EVENT)
    (code : Z) (p : PROCESS_INFO) (stale : rvalue) :
  undefined_read stale (dump_threads opts ev code p stale)
  = existsb (dump_selected opts ev code) (thread_ids (Threads p))
    && match stale with Indeterminate => true | Defined _ => false end.
Proof.
  unfold dump_threads, dump_selected.
  induction (thread_ids (Threads p)) as [|t l IH]; [reflexivity|].
  cbn [flat_map existsb].
  destruct (t =? dwThreadId ev), (code =? STATUS_BREAKPOINT), (verbose_flag opts);
    cbn [negb andb orb app]; try reflexivity; exact IH.
Qed.

(** How the capture of an exception is left. *)
Lemma exception_capture_control (opts : DebugOptions) (ev : DEBUG_EVENT)
    (rec : EXCEPTION_RECORD) (fc status : Z) (s : Session) :
  h_control (exception_capture opts ev rec fc status s)
  = if existsb (dump_selected opts ev (to_NTSTATUS (ExceptionCode rec)))
         (thread_ids (threads_of (g_Processes s) (dwProcessId ev)))
       && pointer_invalid s
    then Undefined else Break.
Proof.
  unfold exception_capture, pointer_invalid.
  pose proof (read_pThreadInfo_subscript (dwProcessId ev) s) as Hread.
  pose proof (subscript_p_threads (dwProcessId ev) (g_Processes s)) as Hts.
  destruct (subscript_p _ _) as [p g]. cbn [fst snd] in *.
  rewrite undefined_read_dump_threads, Hts, Hread.
  destruct (existsb _ _ && _); reflexivity.
Qed.


(** How the exception case is left. *)
Lemma exception_control (W : bool) (opts : DebugOptions) (os : OS_REPLIES)
    (ev : DEBUG_EVENT) (s : Session) :
  is_exception ev = true →
  h_control (loop_body W opts os ev s)
  = if undefined_capture opts s ev then Undefined else Break.
Proof.
  rewrite loop_body_control.
  unfold undefined_capture, captured, silently_continued, dump_due,
    is_second_chance, is_first_chance, is_first_chance_breakpoint, is_exception.
  unfold dispatch. destruct (u ev) as [rec fc| | | | | | | | |]; try discriminate.
  intros _. unfold on_exception. rewrite breakpoint_code.
  destruct (fc =? 0), (ExceptionCode rec =? 0x80000003),
    (fBreakpointSignalled s), (breakpoint_flag opts), (first_chance opts);
    cbn [negb andb orb];
    repeat match goal with
           | |- context [if ?b && negb ?c then _ else _] =>
               destruct (b && negb c)
           end;
    cbv iota; cbn [h_control]; rewrite ?exception_capture_control;
    reflexivity.
Qed.

(** How the switch is left. *)
Lemma control_after (W : bool) (opts : DebugOptions) (os : OS_REPLIES)
    (ev : DEBUG_EVENT) (s : Session) :
  h_control (loop_body W opts os ev s)
  = match u ev with
    | CREATE_PROCESS_DEBUG_EVENT _ _ _ _ =>
        if r_InitializeSym os then Break else Exit EXIT_FAILURE
    | EXCEPTION_DEBUG_EVENT _ _ =>
        if undefined_capture opts s ev then Undefined else Break
    | _ => if asserts_hold os ev then Break else Abort
    end.
Proof.
  destruct (is_exception ev) eqn:Hex.
  - rewrite (exception_control _ _ _ _ _ Hex). unfold is_exception in Hex.
    by destruct (u ev).
  - rewrite loop_body_control. unfold asserts_hold, is_exception in *.
    unfold_handlers.
    destruct (u ev) as [| | | | | | |data fU len| |];
      try discriminate;
      try (repeat case_match; simplify_eq; reflexivity).
    destruct (subscript_p _ _).
    destruct (fU =? 0); cbn [negb andb]; [|reflexivity].
    destruct (_ <=? _)%nat; reflexivity.
Qed.

Lemma undefined_capture_exception (opts : DebugOptions) (s : Session)
    (ev : DEBUG_EVENT) :
  is_exception ev = false → undefined_capture opts s ev = false.
Proof.
  unfold is_exception, undefined_capture, dump_due.
  destruct (u ev); try discriminate; intros _;
    by rewrite andb_false_r.
Qed.

Lemma control_break_iff (W : bool) (opts : DebugOptions) (os : OS_REPLIES)
    (ev : DEBUG_EVENT) (s : Session) :
  h_control (loop_body W opts os ev s) = Break
  ↔ ends_program os ev = false ∧ undefined_capture opts s ev = false.
Proof.
  rewrite control_after. unfold ends_program, asserts_hold.
  destruct (u ev) eqn:Hu;
    try (rewrite (undefined_capture_exception opts s ev)
           by (unfold is_exception; by rewrite Hu));
    try destruct (r_InitializeSym os);
    try destruct (undefined_capture opts s ev);
    try destruct (_ && _); cbn; split; try tauto; try congruence;
    intros [? ?]; congruence.
Qed.

(** An event other than an exception whose handler does not end the program
    leaves the switch by [break]. *)
Lemma control_break_plain (W : bool) (opts : DebugOptions) (os : OS_REPLIES)
    (ev : DEBUG_EVENT) (s : Session) :
  is_exception ev = false → ends_program os ev = false →
  h_control (loop_body W opts os ev s) = Break.
Proof.
  intros Hex Hends. apply control_break_iff. split; [exact Hends|].
  by apply undefined_capture_exception.
Qed.

(** [fFinished] is set by a process exit that empties the registry, and by
    nothing else. *)
Lemma finished_after (W : bool) (opts : DebugOptions) (os : OS_REPLIES)
    (ev : DEBUG_EVENT) (s : Session) :
  fFinished (h_session (loop_body W opts os ev s))
  = fFinished s
    || (is_exit_process ev
        && bool_decide (g_Processes (h_session (loop_body W opts os ev s)) = ∅)).
Proof.
  rewrite loop_body_session. unfold is_exit_process. unfold_handlers.
  destruct (u ev); repeat case_match; simplify_eq; cbn;
    rewrite ?orb_false_r, ?orb_true_r; try reflexivity.
  all: match goal with
       | H : bool_decide _ = _ |- _ => rewrite H
       end; rewrite ?orb_false_r, ?orb_true_r; reflexivity.
Qed.

Lemma waiting_not_finished (W : bool) (opts : DebugOptions)
    (inputs : list (option (DEBUG_EVENT * OS_REPLIES))) (s : Session) :
  outcome (loop W opts inputs s) = Waiting → fFinished s = false.
Proof.
  destruct (fFinished s) eqn:Hf; [|reflexivity].
  by rewrite loop_finished.
Qed.





(** ** C5: the registry under the lifecycle events *)

Lemma process_live_snoc (pid : Z) (evs : list DEBUG_EVENT) (ev : DEBUG_EVENT) :
  process_live pid (evs ++ [ev])
  = creates_process pid ev
    || (process_live pid evs && negb (exits_process pid ev)).
Proof.
  induction evs as [|e evs IH]; cbn.
  - by rewrite andb_true_r, !orb_false_r.
  - rewrite IH, forallb_app. cbn.
    destruct (creates_process pid e), (creates_process pid ev),
      (forallb _ evs), (process_live pid evs), (exits_process pid ev);
      reflexivity.
Qed.

Lemma thread_live_snoc (pid tid : Z) (evs : list DEBUG_EVENT) (ev : DEBUG_EVENT) :
  thread_live pid tid (evs ++ [ev])
  = creates_thread pid tid ev
    || (thread_live pid tid evs
        && negb (exits_thread pid tid ev) && negb (exits_process pid ev)).
Proof.
  induction evs as [|e evs IH]; cbn.
  - by rewrite andb_true_r, !orb_false_r.
  - rewrite IH, forallb_app. cbn.
    destruct (creates_thread pid tid e), (creates_thread pid tid ev),
      (forallb _ evs), (thread_live pid tid evs), (exits_thread pid tid ev),
      (exits_process pid ev);
      reflexivity.
Qed.

Lemma insert_after_subscript_p (pid : Z) (g : gmap Z PROCESS_INFO)
    (p : PROCESS_INFO) :
  <[pid := p]> (snd (subscript_p pid g)) = <[pid := p]> g.
Proof.
  unfold subscript_p. destruct (g !! pid); [reflexivity|].
  cbn. apply insert_insert_eq.
Qed.

Lemma insert_after_subscript_t (tid : Z) (ts : gmap Z THREAD_INFO)
    (t : THREAD_INFO) :
  <[tid := t]> (snd (subscript_t tid ts)) = <[tid := t]> ts.
Proof.
  unfold subscript_t. destruct (ts !! tid); [reflexivity|].
  cbn. apply insert_insert_eq.
Qed.

Lemma store_thread_eq (pid tid : Z) (h : HANDLE) (p : PROCESS_INFO)
    (g : gmap Z PROCESS_INFO) :
  store_thread pid tid h p (snd (subscript_p pid g))
  = <[pid := {| hProcess := hProcess p;
                Threads := <[tid := {| hThread := h |}]> (Threads p) |}]> g.
Proof.
  unfold store_thread.
  pose proof (insert_after_subscript_t tid (Threads p) {| hThread := h |}) as Ht.
  destruct (subscript_t tid (Threads p)) as [t ts]. cbn in Ht. rewrite Ht.
  apply insert_after_subscript_p.
Qed.

(** *** What each lifecycle notification does to the registry *)

Lemma registry_after_create_process (W : bool) (opts : DebugOptions)
    (os : OS_REPLIES) (ev : DEBUG_EVENT) (s : Session)
    (hFile hp ht : HANDLE) (base : Z) :
  u ev = CREATE_PROCESS_DEBUG_EVENT hFile hp ht base →
  g_Processes (h_session (loop_body W opts os ev s))
  = <[dwProcessId ev :=
        {| hProcess := hp;
           Threads := <[dwThreadId ev := {| hThread := ht |}]>
                        (threads_of (g_Processes s) (dwProcessId ev)) |}]>
      (g_Processes s).
Proof.
  intros Hu. rewrite loop_body_session. unfold dispatch. rewrite Hu.
  unfold on_create_process.
  pose proof (subscript_p_threads (dwProcessId ev) (g_Processes s)) as Hts.
  pose proof (store_thread_eq (dwProcessId ev) (dwThreadId ev) ht
                {| hProcess := hp;
                   Threads := Threads (fst (subscript_p (dwProcessId ev) (g_Processes s))) |}
                (g_Processes s)) as Hst.
  destruct (subscript_p _ _) as [p g]. cbn [fst snd] in *.
  destruct (negb (r_InitializeSym os)); cbn [h_session plain];
    record_simpl; rewrite Hst; cbn [hProcess Threads]; by rewrite Hts.
Qed.

Lemma registry_after_create_thread (W : bool) (opts : DebugOptions)
    (os : OS_REPLIES) (ev : DEBUG_EVENT) (s : Session) (ht : HANDLE) :
  u ev = CREATE_THREAD_DEBUG_EVENT ht →
  g_Processes (h_session (loop_body W opts os ev s))
  = <[dwProcessId ev :=
        {| hProcess := process_handle (g_Processes s) (dwProcessId ev);
           Threads := <[dwThreadId ev := {| hThread := ht |}]>
                        (threads_of (g_Processes s) (dwProcessId ev)) |}]>
      (g_Processes s).
Proof.
  intros Hu. rewrite loop_body_session. unfold dispatch. rewrite Hu.
  unfold on_create_thread.
  pose proof (subscript_p_threads (dwProcessId ev) (g_Processes s)) as Hts.
  pose proof (subscript_p_handle (dwProcessId ev) (g_Processes s)) as Hh.
  pose proof (store_thread_eq (dwProcessId ev) (dwThreadId ev) ht
                (fst (subscript_p (dwProcessId ev) (g_Processes s)))
                (g_Processes s)) as Hst.
  destruct (subscript_p _ _) as [p g]. cbn [fst snd] in *.
  cbn [h_session plain]. record_simpl. by rewrite Hst, Hts, Hh.
Qed.

Lemma registry_after_exit_thread (W : bool) (opts : DebugOptions)
    (os : OS_REPLIES) (ev : DEBUG_EVENT) (s : Session) (code : DWORD) :
  u ev = EXIT_THREAD_DEBUG_EVENT code →
  g_Processes (h_session (loop_body W opts os ev s))
  = <[dwProcessId ev :=
        {| hProcess := process_handle (g_Processes s) (dwProcessId ev);
           Threads := delete (dwThreadId ev)
                        (threads_of (g_Processes s) (dwProcessId ev)) |}]>
      (g_Processes s).
Proof.
  intros Hu. rewrite loop_body_session. unfold dispatch. rewrite Hu.
  unfold on_exit_thread.
  pose proof (subscript_p_threads (dwProcessId ev) (g_Processes s)) as Hts.
  pose proof (subscript_p_handle (dwProcessId ev) (g_Processes s)) as Hh.
  pose proof (fun p' => insert_after_subscript_p (dwProcessId ev) (g_Processes s) p')
    as Hins.
  destruct (subscript_p _ _) as [p g]. cbn [fst snd] in *.
  cbn [h_session plain]. record_simpl. by rewrite Hins, Hts, Hh.
Qed.

Lemma registry_after_exit_process (W : bool) (opts : DebugOptions)
    (os : OS_REPLIES) (ev : DEBUG_EVENT) (s : Session) (code : DWORD) :
  u ev = EXIT_PROCESS_DEBUG_EVENT code →
  g_Processes (h_session (loop_body W opts os ev s))
  = delete (dwProcessId ev) (g_Processes s).
Proof.
  intros Hu. rewrite loop_body_session. unfold dispatch. rewrite Hu.
  unfold on_exit_process.
  assert (Hdel : delete (dwProcessId ev)
                   (snd (subscript_p (dwProcessId ev) (g_Processes s)))
                 = delete (dwProcessId ev) (g_Processes s)).
  { unfold subscript_p. destruct (g_Processes s !! dwProcessId ev) eqn:E;
      [reflexivity|]. cbn. by rewrite delete_insert_eq, delete_id. }
  destruct (subscript_p _ _) as [p g]. cbn [fst snd] in *.
  cbn [h_session plain]. destruct (bool_decide _); record_simpl; exact Hdel.
Qed.

Lemma thread_registered_threads_of (g : gmap Z PROCESS_INFO) (pid tid : Z) :
  thread_registered g pid tid
  = match threads_of g pid !! tid with Some _ => true | None => false end.
Proof.
  unfold thread_registered, threads_of. destruct (g !! pid); [reflexivity|].
  by rewrite lookup_empty.
Qed.

(** One lifecycle notification, on a registry that holds its process unless
    it creates it, adds what it creates and removes what it ends. *)
Lemma lifecycle_step (W : bool) (opts : DebugOptions) (os : OS_REPLIES)
    (ev : DEBUG_EVENT) (s : Session) (pid tid : Z) :
  is_lifecycle ev = true →
  creates_process (dwProcessId ev) ev
  || process_registered (g_Processes s) (dwProcessId ev) = true →
  let g' := g_Processes (h_session (loop_body W opts os ev s)) in
  process_registered g' pid
  = creates_process pid ev
    || (process_registered (g_Processes s) pid && negb (exits_process pid ev))
  ∧ thread_registered g' pid tid
    = creates_thread pid tid ev
      || (thread_registered (g_Processes s) pid tid
          && negb (exits_thread pid tid ev) && negb (exits_process pid ev)).
Proof.
  intros Hlife Hreg g'. subst g'.
  unfold is_lifecycle, creates_process, creates_thread, exits_process,
    exits_thread in *.
  destruct (u ev) as [| ht |hFile hp ht base|code|code| | | | |] eqn:Hu;
    try discriminate; cbn [orb andb negb] in *.
  - (* thread create *)
    rewrite (registry_after_create_thread _ _ _ _ _ _ Hu).
    unfold process_registered in *. rewrite !thread_registered_threads_of.
    destruct (Z.eqb_spec (dwProcessId ev) pid) as [<-|Hpid].
    + rewrite lookup_insert_eq. split; [by rewrite Hreg|].
      unfold threads_of at 1. rewrite lookup_insert_eq. cbn [Threads].
      destruct (Z.eqb_spec (dwThreadId ev) tid) as [<-|Htid].
      * by rewrite lookup_insert_eq.
      * rewrite lookup_insert_ne by done. cbn. by rewrite !andb_true_r.
    + rewrite lookup_insert_ne by done. split; [by rewrite andb_true_r|].
      unfold threads_of. rewrite lookup_insert_ne by done.
      cbn. by rewrite !andb_true_r.
  - (* process create *)
    rewrite (registry_after_create_process _ _ _ _ _ _ _ _ _ Hu).
    unfold process_registered in *. rewrite !thread_registered_threads_of.
    destruct (Z.eqb_spec (dwProcessId ev) pid) as [<-|Hpid].
    + rewrite lookup_insert_eq. split; [reflexivity|].
      unfold threads_of at 1. rewrite lookup_insert_eq. cbn [Threads].
      destruct (Z.eqb_spec (dwThreadId ev) tid) as [<-|Htid].
      * by rewrite lookup_insert_eq.
      * rewrite lookup_insert_ne by done. cbn. by rewrite !andb_true_r.
    + rewrite lookup_insert_ne by done. split; [by rewrite andb_true_r|].
      unfold threads_of. rewrite lookup_insert_ne by done.
      cbn. by rewrite !andb_true_r.
  - (* thread exit *)
    rewrite (registry_after_exit_thread _ _ _ _ _ _ Hu).
    unfold process_registered in *. rewrite !thread_registered_threads_of.
    destruct (Z.eqb_spec (dwProcessId ev) pid) as [<-|Hpid].
    + rewrite lookup_insert_eq. split; [by rewrite Hreg|].
      unfold threads_of at 1. rewrite lookup_insert_eq. cbn [Threads].
      destruct (Z.eqb_spec (dwThreadId ev) tid) as [<-|Htid].
      * rewrite lookup_delete_eq. cbn. by rewrite andb_false_r.
      * rewrite lookup_delete_ne by done. cbn. by rewrite !andb_true_r.
    + rewrite lookup_insert_ne by done. split; [by rewrite andb_true_r|].
      unfold threads_of. rewrite lookup_insert_ne by done.
      cbn. by rewrite !andb_true_r.
  - (* process exit *)
    rewrite (registry_after_exit_process _ _ _ _ _ _ Hu).
    unfold process_registered in *. rewrite !thread_registered_threads_of.
    destruct (Z.eqb_spec (dwProcessId ev) pid) as [<-|Hpid].
    + rewrite lookup_delete_eq. split; [by rewrite andb_false_r|].
      unfold threads_of at 1. rewrite lookup_delete_eq, lookup_empty.
      cbn. by rewrite andb_false_r.
    + rewrite lookup_delete_ne by done. split; [by rewrite andb_true_r|].
      unfold threads_of. rewrite lookup_delete_ne by done.
      cbn. by rewrite !andb_true_r.
Qed.

Lemma lifecycle_is_not_exception (ev : DEBUG_EVENT) :
  is_lifecycle ev = true → is_exception ev = false.
Proof. unfold is_lifecycle, is_exception. by destruct (u ev). Qed.

Lemma replay_tracks (W : bool) (opts : DebugOptions) :
  ∀ (inputs : list (DEBUG_EVENT * OS_REPLIES)) (before : list DEBUG_EVENT)
    (s : Session),
    tracks before s →
    disciplined before (map fst inputs) = true →
    Forall (fun i => ends_program (snd i) (fst i) = false) inputs →
    ∃ s', replay W opts inputs s = Some s'
          ∧ tracks (before ++ map fst inputs) s'.
Proof.
  induction inputs as [|[ev os] rest IH]; intros before s Htr Hd Hok.
  - exists s. cbn. by rewrite app_nil_r.
  - cbn in Hd. apply andb_true_iff in Hd as [Hd Hrest].
    apply andb_true_iff in Hd as [Hlife Hheld].
    apply Forall_cons in Hok as [Hok Hoks]. cbn in Hok.
    apply (control_break_plain W opts) with (s := s) in Hok;
      [|by apply lifecycle_is_not_exception].
    cbn [replay]. cbv zeta. rewrite Hok.
    destruct (IH (before ++ [ev]) (h_session (loop_body W opts os ev s)))
      as (s' & Hs' & Htr'); [|exact Hrest|exact Hoks|].
    + intros pid.
      assert (Hheld' : creates_process (dwProcessId ev) ev
                       || process_registered (g_Processes s) (dwProcessId ev)
                       = true).
      { by rewrite (proj1 (Htr (dwProcessId ev))). }
      split; [|intros tid].
      * rewrite (proj1 (lifecycle_step W opts os ev s pid 0 Hlife Hheld')).
        by rewrite process_live_snoc, (proj1 (Htr pid)).
      * rewrite (proj2 (lifecycle_step W opts os ev s pid tid Hlife Hheld')).
        by rewrite thread_live_snoc, (proj2 (Htr pid) tid).
    + exists s'. split; [exact Hs'|].
      cbn [map fst]. by rewrite <- app_assoc in Htr'.
Qed.

(** C5. For every sequence of process-create, thread-create, thread-exit
    and process-exit notifications that keeps the registry discipline (a
    thread event and a process exit name a process created and not yet
    exited), on which symbol initialisation succeeds, the replay from the
    empty registry handles every notification, and afterwards the registry
    holds exactly the processes that have been created and have not exited,
    and for each exactly the threads that have been created and have not
    exited. *)
Theorem registry_tracks_lifecycle (W : bool) (opts : DebugOptions)
    (inputs : list (DEBUG_EVENT * OS_REPLIES)) :
  disciplined [] (map fst inputs) = true →
  Forall (fun i => ends_program (snd i) (fst i) = false) inputs →
  ∃ s',
    replay W opts inputs (session_start ∅) = Some s'
    ∧ ∀ pid,
        process_registered (g_Processes s') pid
        = process_live pid (map fst inputs)
        ∧ ∀ tid,
            thread_registered (g_Processes s') pid tid
            = thread_live pid tid (map fst inputs).
Proof.
  intros Hd Hok.
  destruct (replay_tracks W opts inputs [] (session_start ∅)) as (s' & Hs' & Htr);
    [|exact Hd|exact Hok|].
  - intros pid. unfold process_registered, thread_registered. cbn.
    by rewrite lookup_empty.
  - exists s'. split; [exact Hs'|exact Htr].
Qed.

Lemma registry_tracks_lifecycle_witness :
  ∃ s',
    replay true quiet_options two_processes (session_start ∅) = Some s'
    ∧ process_registered (g_Processes s') 1 = true
    ∧ process_registered (g_Processes s') 2 = false
    ∧ thread_registered (g_Processes s') 1 10 = false
    ∧ thread_registered (g_Processes s') 1 11 = true.
Proof.
  destruct (registry_tracks_lifecycle true quiet_options two_processes)
    as (s' & Hs' & Htr).
  - reflexivity.
  - repeat constructor.
  - exists s'. split; [exact Hs'|].
    rewrite (proj1 (Htr 1)), (proj1 (Htr 2)), (proj2 (Htr 1) 10),
      (proj2 (Htr 1) 11).
    repeat split; reflexivity.
Defined.

(** * Further properties *)

(** ** The resume call *)




(** ** Termination of the target *)


(** ** The registry under the other events *)

(** Apart from the four lifecycle notifications, a handler changes the
    registry by its subscript at most. *)
Lemma registry_after_other (W : bool) (opts : DebugOptions) (os : OS_REPLIES)
    (ev : DEBUG_EVENT) (s : Session) :
  is_lifecycle ev = false →
  g_Processes (h_session (loop_body W opts os ev s)) = g_Processes s
  ∨ g_Processes (h_session (loop_body W opts os ev s))
    = snd (subscript_p (dwProcessId ev) (g_Processes s)).
Proof.
  rewrite loop_body_session. unfold is_lifecycle, dispatch.
  destruct (u ev) as [rec fc| | | | |hFile base|base|data fU len| |code];
    try discriminate; intros _.
  - unfold on_exception, exception_capture.
    destruct (fc =? 0), (ExceptionCode rec =? to_DWORD STATUS_BREAKPOINT),
      (fBreakpointSignalled s), (breakpoint_flag opts), (first_chance opts);
      cbn [negb andb orb];
      repeat match goal with
             | |- context [if ?b && negb ?c then _ else _] =>
                 destruct (b && negb c)
             end;
      cbv iota; record_simpl;
      repeat match goal with
             | |- context [subscript_p ?a ?b] => destruct (subscript_p a b)
             end;
      repeat match goal with
             | |- context [undefined_read ?a ?b] => destruct (undefined_read a b)
             end;
      cbn [h_session snd]; record_simpl; auto.
  - unfold on_load_dll. destruct (subscript_p _ _). cbn. auto.
  - unfold on_unload_dll. destruct (subscript_p _ _). cbn. auto.
  - unfold on_debug_string, readProcessString. destruct (subscript_p _ _).
    destruct (negb (fU =? 0)); [|destruct (_ <=? _)%nat]; cbn; auto.
  - cbn. auto.
  - cbn. auto.
Qed.

Lemma subscript_p_other (pid pid' : Z) (g : gmap Z PROCESS_INFO) :
  pid' ≠ pid → snd (subscript_p pid g) !! pid' = g !! pid'.
Proof.
  intros Hne. unfold subscript_p. destruct (g !! pid); [reflexivity|].
  cbn. by rewrite lookup_insert_ne.
Qed.

(** X3. No event touches the record of a process other than the one that
    reports it. *)
Theorem other_processes_untouched (W : bool) (opts : DebugOptions)
    (os : OS_REPLIES) (ev : DEBUG_EVENT) (s : Session) (pid' : Z) :
  pid' ≠ dwProcessId ev →
  g_Processes (h_session (loop_body W opts os ev s)) !! pid'
  = g_Processes s !! pid'.
Proof.
  intros Hne. destruct (is_lifecycle ev) eqn:Hlife.
  - unfold is_lifecycle in Hlife.
    destruct (u ev) as [| ht |hFile hp ht base|code|code| | | | |] eqn:Hu;
      try discriminate.
    + rewrite (registry_after_create_thread _ _ _ _ _ _ Hu).
      by rewrite lookup_insert_ne.
    + rewrite (registry_after_create_process _ _ _ _ _ _ _ _ _ Hu).
      by rewrite lookup_insert_ne.
    + rewrite (registry_after_exit_thread _ _ _ _ _ _ Hu).
      by rewrite lookup_insert_ne.
    + rewrite (registry_after_exit_process _ _ _ _ _ _ Hu).
      by rewrite lookup_delete_ne.
  - destruct (registry_after_other W opts os ev s Hlife) as [->| ->];
      [reflexivity|]. by apply subscript_p_other.
Qed.

Lemma other_processes_untouched_witness :
  g_Processes (h_session (loop_body true quiet_options all_fine
                            thread_create_11 (session_start one_thread_registry)))
  !! 2 = one_thread_registry !! 2.
Proof.
  apply (other_processes_untouched true quiet_options all_fine thread_create_11
           (session_start one_thread_registry) 2).
  discriminate.
Defined.

(** X4. An exception, a module load or unload, a debug string, a RIP or an
    unrecognised event of a registered process leaves the whole registry as
    it was. *)
Theorem registry_unchanged_by_other_events (W : bool) (opts : DebugOptions)
    (os : OS_REPLIES) (ev : DEBUG_EVENT) (s : Session) :
  is_lifecycle ev = false →
  is_Some (g_Processes s !! dwProcessId ev) →
  g_Processes (h_session (loop_body W opts os ev s)) = g_Processes s.
Proof.
  intros Hlife [p Hp].
  destruct (registry_after_other W opts os ev s Hlife) as [->| ->];
    [reflexivity|]. by rewrite (subscript_p_present _ _ _ Hp).
Qed.

Lemma registry_unchanged_by_other_events_witness :
  g_Processes (h_session (loop_body true quiet_options all_fine
                 (event 1 10 (EXCEPTION_DEBUG_EVENT access_violation 0))
                 (session_start one_thread_registry)))
  = one_thread_registry.
Proof.
  apply (registry_unchanged_by_other_events true quiet_options all_fine
           (event 1 10 (EXCEPTION_DEBUG_EVENT access_violation 0))
           (session_start one_thread_registry)).
  - reflexivity.
  - eexists. reflexivity.
Defined.

(** ** Handles stored and erased *)

Lemma process_handle_insert (g : gmap Z PROCESS_INFO) (pid : Z) (p : PROCESS_INFO) :
  process_handle (<[pid := p]> g) pid = hProcess p.
Proof. unfold process_handle. by rewrite lookup_insert_eq. Qed.

Lemma threads_of_insert (g : gmap Z PROCESS_INFO) (pid : Z) (p : PROCESS_INFO) :
  threads_of (<[pid := p]> g) pid = Threads p.
Proof. unfold threads_of. by rewrite lookup_insert_eq. Qed.

Lemma thread_handle_threads_of (g : gmap Z PROCESS_INFO) (pid tid : Z) :
  thread_handle g pid tid
  = match threads_of g pid !! tid with Some t => hThread t | None => NULL end.
Proof.
  unfold thread_handle, threads_of. destruct (g !! pid); [reflexivity|].
  by rewrite lookup_empty.
Qed.

(** X5. After a process-create the registry returns the process handle and the
    handle of the initial thread that the notification carried; the threads
    already recorded under that identifier stay, with their handles. *)
Theorem process_create_records_handles (W : bool) (opts : DebugOptions)
    (os : OS_REPLIES) (ev : DEBUG_EVENT) (s : Session)
    (hFile hp ht : HANDLE) (base : Z) :
  u ev = CREATE_PROCESS_DEBUG_EVENT hFile hp ht base →
  let g' := g_Processes (h_session (loop_body W opts os ev s)) in
  process_handle g' (dwProcessId ev) = hp
  ∧ thread_handle g' (dwProcessId ev) (dwThreadId ev) = ht
  ∧ ∀ tid, tid ≠ dwThreadId ev →
           threads_of g' (dwProcessId ev) !! tid
           = threads_of (g_Processes s) (dwProcessId ev) !! tid.
Proof.
  intros Hu g'. subst g'.
  rewrite (registry_after_create_process _ _ _ _ _ _ _ _ _ Hu).
  rewrite process_handle_insert, thread_handle_threads_of, threads_of_insert.
  cbn [hProcess Threads]. rewrite lookup_insert_eq.
  repeat split. intros tid Hne. by rewrite lookup_insert_ne.
Qed.

Lemma process_create_records_handles_witness :
  process_handle
    (g_Processes (h_session (loop_body true quiet_options all_fine
                               process_create_1 (session_start ∅)))) 1 = 100.
Proof.
  exact (proj1 (process_create_records_handles true quiet_options all_fine
                  process_create_1 (session_start ∅) 5 100 110 0x400000
                  eq_refl)).
Defined.

(** X6. After a thread-create the registry returns the handle the notification
    carried for that thread; the process handle and the other threads of the
    process are as before. *)
Theorem thread_create_records_handle (W : bool) (opts : DebugOptions)
    (os : OS_REPLIES) (ev : DEBUG_EVENT) (s : Session) (ht : HANDLE) :
  u ev = CREATE_THREAD_DEBUG_EVENT ht →
  let g' := g_Processes (h_session (loop_body W opts os ev s)) in
  thread_handle g' (dwProcessId ev) (dwThreadId ev) = ht
  ∧ process_handle g' (dwProcessId ev)
    = process_handle (g_Processes s) (dwProcessId ev)
  ∧ ∀ tid, tid ≠ dwThreadId ev →
           threads_of g' (dwProcessId ev) !! tid
           = threads_of (g_Processes s) (dwProcessId ev) !! tid.
Proof.
  intros Hu g'. subst g'.
  rewrite (registry_after_create_thread _ _ _ _ _ _ Hu).
  rewrite process_handle_insert, thread_handle_threads_of, threads_of_insert.
  cbn [hProcess Threads]. rewrite lookup_insert_eq.
  repeat split. intros tid Hne. by rewrite lookup_insert_ne.
Qed.

Lemma thread_create_records_handle_witness :
  thread_handle
    (g_Processes (h_session (loop_body true quiet_options all_fine
                               thread_create_11
                               (session_start one_thread_registry)))) 1 11 = 111.
Proof.
  exact (proj1 (thread_create_records_handle true quiet_options all_fine
                  thread_create_11 (session_start one_thread_registry) 111
                  eq_refl)).
Defined.

(** X7. A thread-exit erases the record of that thread and nothing else: the
    other threads and the process handle stay, and the ProcessRecord stays
    registered even when its last thread is gone; for a thread the registry
    does not hold, nothing changes in the threads of the process. *)
Theorem thread_exit_erases_one_thread (W : bool) (opts : DebugOptions)
    (os : OS_REPLIES) (ev : DEBUG_EVENT) (s : Session) (code : DWORD) :
  u ev = EXIT_THREAD_DEBUG_EVENT code →
  let g' := g_Processes (h_session (loop_body W opts os ev s)) in
  threads_of g' (dwProcessId ev)
  = delete (dwThreadId ev) (threads_of (g_Processes s) (dwProcessId ev))
  ∧ process_handle g' (dwProcessId ev)
    = process_handle (g_Processes s) (dwProcessId ev)
  ∧ is_Some (g' !! dwProcessId ev)
  ∧ (threads_of (g_Processes s) (dwProcessId ev) !! dwThreadId ev = None →
     threads_of g' (dwProcessId ev)
     = threads_of (g_Processes s) (dwProcessId ev)).
Proof.
  intros Hu g'. subst g'.
  rewrite (registry_after_exit_thread _ _ _ _ _ _ Hu).
  rewrite process_handle_insert, threads_of_insert. cbn [hProcess Threads].
  rewrite lookup_insert_eq. repeat split; [eauto|].
  intros Hnone. by apply delete_id.
Qed.

Lemma thread_exit_erases_one_thread_witness :
  threads_of
    (g_Processes (h_session (loop_body true quiet_options all_fine
                               (event 1 10 (EXIT_THREAD_DEBUG_EVENT 0))
                               (session_start one_thread_registry)))) 1
  = delete 10 (threads_of one_thread_registry 1).
Proof.
  exact (proj1 (thread_exit_erases_one_thread true quiet_options all_fine
                  (event 1 10 (EXIT_THREAD_DEBUG_EVENT 0))
                  (session_start one_thread_registry) 0 eq_refl)).
Defined.

(** ** Process exit *)

(** X8. A process-exit erases the record of the process (for an identifier the
    registry does not hold, the registry is left as it was), calls
    [SymCleanup] once, on the handle the registry held, reports its failure
    and goes on, dumps one stack exactly when the exit code is 3, and sets
    [fFinished] exactly when no other process is registered. *)
Theorem process_exit_cleanup (W : bool) (opts : DebugOptions)
    (os : OS_REPLIES) (ev : DEBUG_EVENT) (s : Session) (code : DWORD) :
  u ev = EXIT_PROCESS_DEBUG_EVENT code →
  let h := loop_body W opts os ev s in
  let g := g_Processes s in
  g_Processes (h_session h) = delete (dwProcessId ev) g
  ∧ (g !! dwProcessId ev = None → g_Processes (h_session h) = g)
  ∧ count is_SymCleanup (h_actions h) = 1%nat
  ∧ In (SymCleanup (process_handle g (dwProcessId ev))) (h_actions h)
  ∧ count is_dumpStack (h_actions h) = (if code =? 3 then 1%nat else 0%nat)
  ∧ (In (OutputDebug "SymCleanup failed with 0x%08lx\n") (h_actions h)
     ↔ r_SymCleanup os = false)
  ∧ h_control h = Break
  ∧ fFinished (h_session h)
    = fFinished s || bool_decide (delete (dwProcessId ev) g = ∅).
Proof.
  intros Hu h g. subst h g.
  pose proof (registry_after_exit_process W opts os ev s code Hu) as Hg.
  split; [exact Hg|]. split; [intros Hnone; rewrite Hg; by apply delete_id|].
  assert (Hc : h_control (dispatch W opts os ev s) = Break).
  { unfold dispatch. rewrite Hu. unfold on_exit_process.
    destruct (subscript_p _ _). reflexivity. }
  assert (Hfin : fFinished (h_session (loop_body W opts os ev s))
                 = fFinished s
                   || bool_decide (delete (dwProcessId ev) (g_Processes s) = ∅)).
  { rewrite finished_after, Hg. unfold is_exit_process. by rewrite Hu. }
  rewrite loop_body_control, (loop_body_actions_break _ _ _ _ _ Hc).
  pose proof (subscript_p_handle (dwProcessId ev) (g_Processes s)) as Hp.
  unfold dispatch. rewrite Hu. unfold on_exit_process.
  destruct (subscript_p _ _) as [p g]. cbn [fst] in Hp. rewrite <- Hp.
  cbn [h_actions h_status h_control plain].
  split; [|split; [|split; [|split; [|split; [reflexivity|exact Hfin]]]]].
  - destruct (code =? 3), (r_SymCleanup os);
      repeat match goal with
             | |- context [subscript_t ?a ?b] => destruct (subscript_t a b)
             end; count_simpl; reflexivity.
  - rewrite !in_app_iff. left. right. right. left. by left.
  - destruct (code =? 3), (r_SymCleanup os);
      repeat match goal with
             | |- context [subscript_t ?a ?b] => destruct (subscript_t a b)
             end; count_simpl; reflexivity.
  - rewrite !in_app_iff. unfold trace_line. split.
    + intros [[Hin|[Hin|[Hin|Hin]]]|Hin].
      * destruct (debug_flag opts); [|destruct Hin].
        destruct Hin as [Hin|[]]. discriminate.
      * destruct (code =? 3); [|destruct Hin].
        destruct (subscript_t _ _). destruct Hin as [Hin|[]]. discriminate.
      * destruct Hin as [Hin|[]]. discriminate.
      * destruct (r_SymCleanup os); [destruct Hin|reflexivity].
      * destruct Hin as [Hin|[]]. discriminate.
    + intros ->. left. right. right. right. by left.
Qed.

Lemma process_exit_cleanup_witness :
  g_Processes (h_session (loop_body true quiet_options all_fine
                            (event 1 10 (EXIT_PROCESS_DEBUG_EVENT 3))
                            (session_start one_thread_registry)))
  = delete 1 one_thread_registry.
Proof.
  exact (proj1 (process_exit_cleanup true quiet_options all_fine
                  (event 1 10 (EXIT_PROCESS_DEBUG_EVENT 3))
                  (session_start one_thread_registry) 3 eq_refl)).
Defined.

(** ** Runs of the loop *)

(** A run that is still waiting after [pre] goes on with what comes next
    from the session it has reached. *)
Lemma loop_app (W : bool) (opts : DebugOptions) :
  ∀ (pre rest : list (option (DEBUG_EVENT * OS_REPLIES))) (s : Session),
    outcome (loop W opts pre s) = Waiting →
    loop W opts (pre ++ rest) s
    = let r := loop W opts rest (final (loop W opts pre s)) in
      {| outcome := outcome r; final := final r;
         steps := steps (loop W opts pre s) ++ steps r |}.
Proof.
  induction pre as [|[[ev os]|] pre IH]; intros rest s Hw.
  - pose proof (waiting_not_finished _ _ _ _ Hw) as Hf.
    cbn [app]. cbn. rewrite Hf. cbn. by destruct (loop W opts rest s).
  - pose proof (waiting_not_finished _ _ _ _ Hw) as Hf.
    cbn [app]. rewrite (loop_cons _ _ _ _ (pre ++ rest) _ Hf).
    rewrite (loop_cons _ _ _ _ pre _ Hf) in *. cbv zeta in *.
    destruct (h_control (loop_body W opts os ev s)); try discriminate Hw.
    cbn [cons_step outcome final steps] in *.
    rewrite (IH rest _ Hw). reflexivity.
  - pose proof (waiting_not_finished _ _ _ _ Hw) as Hf.
    cbn in Hw. rewrite Hf in Hw. discriminate.
Qed.

(** X9. [DebugMainLoop] returns FALSE if and only if a wait fails while the loop
    is waiting; it then reports the failure, resumes nothing, and leaves the
    registry as the events before had made it. *)
Theorem returns_false_iff_wait_fails (W : bool) (opts : DebugOptions)
    (inputs : list (option (DEBUG_EVENT * OS_REPLIES)))
    (g : gmap Z PROCESS_INFO) :
  let r := DebugMainLoop W opts inputs g in
  (outcome r = Returned false
   ↔ ∃ pre post,
       inputs = pre ++ None :: post
       ∧ outcome (DebugMainLoop W opts pre g) = Waiting)
  ∧ (∀ pre post,
       inputs = pre ++ None :: post →
       outcome (DebugMainLoop W opts pre g) = Waiting →
       final r = final (DebugMainLoop W opts pre g)
       ∧ steps r
         = steps (DebugMainLoop W opts pre g)
           ++ [ {| st_event := None;
                   st_actions := [OutputDebug "WaitForDebugEvent: 0x%08lx"] |} ]).
Proof.
  intros r. subst r. unfold DebugMainLoop.
  assert (Hfail : ∀ pre post s,
            outcome (loop W opts pre s) = Waiting →
            loop W opts (pre ++ None :: post) s
            = {| outcome := Returned false; final := final (loop W opts pre s);
                 steps := steps (loop W opts pre s)
                          ++ [ {| st_event := None;
                                  st_actions := [OutputDebug "WaitForDebugEvent: 0x%08lx"] |} ] |}).
  { intros pre post s Hw. rewrite (loop_app _ _ _ _ _ Hw). cbv zeta.
    assert (Hf : fFinished (final (loop W opts pre s)) = false).
    { clear post. revert s Hw. induction pre as [|[[ev os]|] pre IH]; intros s Hw;
        pose proof (waiting_not_finished _ _ _ _ Hw) as Hf.
      - cbn. by rewrite Hf.
      - rewrite (loop_cons _ _ _ _ _ _ Hf).
        rewrite (loop_cons _ _ _ _ _ _ Hf) in Hw. cbv zeta in *.
        destruct (h_control (loop_body W opts os ev s)); try discriminate Hw.
        cbn [cons_step outcome final] in *. by apply IH.
      - cbn in Hw. rewrite Hf in Hw. discriminate. }
    cbn. rewrite Hf. reflexivity. }
  split.
  - split.
    + generalize (session_start g) (eq_refl : fFinished (session_start g) = false).
      induction inputs as [|[[ev os]|] rest IH]; intros s Hf.
      * cbn. rewrite Hf. discriminate.
      * rewrite (loop_cons _ _ _ _ _ _ Hf). cbv zeta.
        destruct (h_control (loop_body W opts os ev s)) eqn:Hc; try discriminate.
        cbn [cons_step outcome]. intros Hret.
        destruct (fFinished (h_session (loop_body W opts os ev s))) eqn:Hf'.
        { rewrite loop_finished in Hret by done. discriminate. }
        destruct (IH _ Hf' Hret) as (pre & post & -> & Hw).
        exists (Some (ev, os) :: pre), post. split; [reflexivity|].
        rewrite (loop_cons _ _ _ _ _ _ Hf). cbv zeta. rewrite Hc.
        exact Hw.
      * intros _. exists [], rest. split; [reflexivity|]. cbn. by rewrite Hf.
    + intros (pre & post & -> & Hw). by rewrite (Hfail _ _ _ Hw).
  - intros pre post -> Hw. by rewrite (Hfail _ _ _ Hw).
Qed.

Lemma returns_false_iff_wait_fails_witness :
  outcome (DebugMainLoop true quiet_options
             ([Some (process_create_1, all_fine)] ++ None :: []) ∅)
  = Returned false.
Proof.
  apply (proj1 (returns_false_iff_wait_fails true quiet_options
                  ([Some (process_create_1, all_fine)] ++ None :: []) ∅)).
  exists [Some (process_create_1, all_fine)], []. split; [reflexivity|].
  vm_compute. reflexivity.
Defined.

(** X10. When [DebugMainLoop] returns TRUE the registry is empty, and the last
    thing it did was to resume the thread that reported a process exit. *)
Theorem returned_true_registry_empty (W : bool) (opts : DebugOptions)
    (inputs : list (option (DEBUG_EVENT * OS_REPLIES)))
    (g : gmap Z PROCESS_INFO) :
  let r := DebugMainLoop W opts inputs g in
  outcome r = Returned true →
  g_Processes (final r) = ∅
  ∧ ∃ before ev acts,
      steps r
      = before
        ++ [ {| st_event := Some ev;
                st_actions :=
                  acts ++ [ContinueDebugEvent (dwProcessId ev) (dwThreadId ev)
                             DBG_CONTINUE] |} ]
      ∧ is_exit_process ev = true.
Proof.
  intros r. subst r. unfold DebugMainLoop.
  generalize (session_start g) (eq_refl : fFinished (session_start g) = false).
  induction inputs as [|[[ev os]|] rest IH]; intros s Hf.
  - cbn. rewrite Hf. discriminate.
  - rewrite (loop_cons _ _ _ _ _ _ Hf). cbv zeta.
    destruct (h_control (loop_body W opts os ev s)) eqn:Hc; try discriminate.
    cbn [cons_step outcome final steps]. intros Hret.
    destruct (fFinished (h_session (loop_body W opts os ev s))) eqn:Hf'.
    + rewrite loop_finished by done. cbn [final steps].
      rewrite finished_after, Hf in Hf'. cbn in Hf'.
      apply andb_true_iff in Hf' as [Hexit Hempty].
      apply bool_decide_eq_true in Hempty. split; [exact Hempty|].
      rewrite loop_body_control in Hc.
      exists [], ev, (h_actions (dispatch W opts os ev s)). split; [|exact Hexit].
      cbn [app]. rewrite (loop_body_actions_break _ _ _ _ _ Hc).
      rewrite status_untouched; [reflexivity|].
      unfold is_exit_process, is_exception in *. by destruct (u ev).
    + destruct (IH _ Hf' Hret) as (Hempty & before & ev' & acts & Hsteps & Hexit).
      split; [exact Hempty|].
      exists ({| st_event := Some ev;
                 st_actions := h_actions (loop_body W opts os ev s) |} :: before),
        ev', acts.
      split; [|exact Hexit]. cbn [app]. by rewrite Hsteps.
  - cbn. rewrite Hf. discriminate.
Qed.

Lemma returned_true_registry_empty_witness :
  g_Processes
    (final (DebugMainLoop true quiet_options
              [Some (process_create_1, all_fine);
               Some (event 1 10 (EXIT_PROCESS_DEBUG_EVENT 0), all_fine)] ∅))
  = ∅.
Proof.
  apply (returned_true_registry_empty true quiet_options
           [Some (process_create_1, all_fine);
            Some (event 1 10 (EXIT_PROCESS_DEBUG_EVENT 0), all_fine)] ∅).
  vm_compute. reflexivity.
Defined.

(** ** The exception policy *)


(** The calls of an iteration are those of the switch, followed by the
    resume call or by nothing. *)
Lemma loop_body_actions (W : bool) (opts : DebugOptions) (os : OS_REPLIES)
    (ev : DEBUG_EVENT) (s : Session) :
  ∃ tail,
    h_actions (loop_body W opts os ev s)
    = h_actions (dispatch W opts os ev s) ++ tail
    ∧ (tail = []
       ∨ tail = [ContinueDebugEvent (dwProcessId ev) (dwThreadId ev)
                   (h_status (dispatch W opts os ev s))]).
Proof.
  destruct (h_control (dispatch W opts os ev s)) eqn:Hc.
  - eexists. split; [by apply loop_body_actions_break|by right].
  - exists []. rewrite app_nil_r.
    split; [apply loop_body_actions_stop; congruence|by left].
  - exists []. rewrite app_nil_r.
    split; [apply loop_body_actions_stop; congruence|by left].
  - exists []. rewrite app_nil_r.
    split; [apply loop_body_actions_stop; congruence|by left].
Qed.
















(** ** The stack dumps of one iteration *)

(** X15. All the stack dumps of one iteration are one and the same call: in the
    per-thread loop of the exception case neither the process handle nor the
    thread handle passed depends on the thread iterated. *)
Theorem stack_dumps_are_one_call (W : bool) (opts : DebugOptions)
    (os : OS_REPLIES) (ev : DEBUG_EVENT) (s : Session) :
  ∃ hp ht,
    ∀ a, In a (h_actions (loop_body W opts os ev s)) →
         is_dumpStack a = true → a = dumpStack hp ht.
Proof.
  assert (Hbody : ∀ a, In a (h_actions (loop_body W opts os ev s)) →
                       is_dumpStack a = true →
                       In a (h_actions (dispatch W opts os ev s))).
  { intros a Ha Hd. destruct (h_control (dispatch W opts os ev s)) eqn:Hc.
    - rewrite (loop_body_actions_break _ _ _ _ _ Hc) in Ha.
      apply in_app_iff in Ha as [Ha|[<-|[]]]; [exact Ha|discriminate].
    - rewrite loop_body_actions_stop in Ha; [exact Ha|congruence].
    - rewrite loop_body_actions_stop in Ha; [exact Ha|congruence].
    - rewrite loop_body_actions_stop in Ha; [exact Ha|congruence]. }
  destruct (u ev) as [rec fc| | | |code| | | | |] eqn:Hu.
  2-4,6-10:
    exists NULL, Indeterminate; intros a Ha Hd; exfalso;
    assert (Hz : count is_dumpStack (h_actions (dispatch W opts os ev s)) = 0%nat)
      by (unfold_handlers; rewrite Hu; repeat case_match; simplify_eq;
          cbn [h_actions]; count_simpl; reflexivity);
    pose proof (proj1 (count_zero _ _) Hz a (Hbody a Ha Hd)); congruence.
  - exists (process_handle (g_Processes s) (dwProcessId ev)),
      (read_pThreadInfo
         (set_Processes (snd (subscript_p (dwProcessId ev) (g_Processes s))) s)).
    intros a Ha Hd. apply Hbody in Ha; [|exact Hd]. clear Hbody.
    pose proof (subscript_p_handle (dwProcessId ev) (g_Processes s)) as Hp.
    revert Ha. unfold dispatch. rewrite Hu.
    unfold on_exception, exception_capture.
    destruct (fc =? 0), (ExceptionCode rec =? to_DWORD STATUS_BREAKPOINT),
      (fBreakpointSignalled s), (hEvent opts =? NULL), (breakpoint_flag opts),
      (first_chance opts); cbn [negb andb orb];
      repeat match goal with
             | |- context [if ?b && negb ?c then _ else _] =>
                 destruct (b && negb c)
             end;
      cbv iota; record_simpl;
      destruct (subscript_p _ _) as [p g]; cbn [fst snd] in *;
      repeat match goal with
             | |- context [undefined_read ?a ?b] => destruct (undefined_read a b)
             end;
      cbn [h_actions h_session]; record_simpl;
      rewrite ?in_app_iff; unfold trace_line; destruct (debug_flag opts);
      cbn [In]; intros Ha;
      repeat match goal with
             | H : _ ∨ _ |- _ => destruct H
             | H : False |- _ => destruct H
             | H : In _ (dump_threads _ _ _ _ _) |- _ =>
                 apply dump_threads_same_handle in H
             end; subst; try discriminate; rewrite <- ?Hp; reflexivity.
  - exists (process_handle (g_Processes s) (dwProcessId ev)),
      (Defined (thread_handle (g_Processes s) (dwProcessId ev) (dwThreadId ev))).
    intros a Ha Hd. apply Hbody in Ha; [|exact Hd]. clear Hbody.
    pose proof (subscript_p_handle (dwProcessId ev) (g_Processes s)) as Hp.
    pose proof (subscript_t_handle (dwProcessId ev) (dwThreadId ev) (g_Processes s)) as Ht.
    revert Ha. unfold dispatch. rewrite Hu. unfold on_exit_process.
    destruct (subscript_p _ _) as [p g]. cbn [fst] in *.
    destruct (subscript_t _ _) as [t ts]. cbn [fst] in *. subst.
    cbn [h_actions plain]. rewrite ?in_app_iff. unfold trace_line.
    destruct (debug_flag opts), (code =? 3), (r_SymCleanup os);
      cbn [In]; intros Ha;
      repeat match goal with
             | H : _ ∨ _ |- _ => destruct H
             | H : False |- _ => destruct H
             end; subst; try discriminate; rewrite <- ?Hp, <- ?Ht; reflexivity.
Qed.

(** No stack dump is called with a handle read through an invalid
    [pThreadInfo]: the handler ends before the call. *)
Lemma dumps_read_valid_pointer (W : bool) (opts : DebugOptions)
    (os : OS_REPLIES) (ev : DEBUG_EVENT) (s : Session) (hp : HANDLE) :
  ¬ In (dumpStack hp Indeterminate) (h_actions (loop_body W opts os ev s)).
Proof.
  intros Hin.
  destruct (loop_body_actions W opts os ev s) as (tail & Ha & Htail).
  rewrite Ha in Hin. apply in_app_iff in Hin as [Hin|Hin];
    [|destruct Htail as [->| ->]; cbn in Hin; intuition discriminate].
  clear tail Ha Htail.
  assert (Hlog : ∀ fmt args,
            ¬ In (dumpStack hp Indeterminate) (trace_line opts fmt args)).
  { intros fmt args. unfold trace_line. destruct (debug_flag opts); cbn;
      intuition discriminate. }
  destruct (u ev) as [rec fc| | | |code| | | | |] eqn:Hu.
  2-4,6-10:
    assert (Hz : count is_dumpStack (h_actions (dispatch W opts os ev s)) = 0%nat)
      by (unfold_handlers; rewrite Hu; repeat case_match; simplify_eq;
          cbn [h_actions]; count_simpl; reflexivity);
    pose proof (proj1 (count_zero _ _) Hz _ Hin); discriminate.
  - assert (Hcap : ∀ st s',
              ¬ In (dumpStack hp Indeterminate)
                  (h_actions (exception_capture opts ev rec fc st s'))).
    { intros st s'. unfold exception_capture.
      destruct (subscript_p _ _) as [p g].
      destruct (undefined_read _ _) eqn:Eu; cbn [h_actions];
        rewrite ?in_app_iff; cbn [In]; [intuition discriminate|].
      intros [[H|[H|[]]]|[H|H]]; try discriminate.
      - pose proof (dump_threads_same_handle _ _ _ _ _ _ H) as Heq.
        injection Heq as _ Hst. rewrite <- Hst in Eu, H.
        destruct (dump_threads _ _ _ _ _); [destruct H|discriminate Eu].
      - destruct (fc =? 0); cbn in H; intuition discriminate. }
    revert Hin. unfold dispatch. rewrite Hu. unfold on_exception.
    destruct (fc =? 0), (ExceptionCode rec =? to_DWORD STATUS_BREAKPOINT),
      (fBreakpointSignalled s), (hEvent opts =? NULL), (breakpoint_flag opts),
      (first_chance opts); cbn [negb andb orb];
      repeat match goal with
             | |- context [if ?b && negb ?c then _ else _] =>
                 destruct (b && negb c)
             end;
      cbv iota; cbn [h_actions]; rewrite ?in_app_iff; cbn [In]; intros Hin;
      repeat match goal with
             | H : _ ∨ _ |- _ => destruct H
             | H : False |- _ => destruct H
             | H : In _ (trace_line _ _ _) |- _ => apply Hlog in H
             | H : In _ (h_actions (exception_capture _ _ _ _ _ _)) |- _ =>
                 apply Hcap in H
             end; discriminate.
  - revert Hin. unfold dispatch. rewrite Hu. unfold on_exit_process.
    destruct (subscript_p _ _) as [p g].
    destruct (subscript_t _ _) as [t ts].
    cbn [h_actions plain]. rewrite ?in_app_iff.
    destruct (code =? 3), (r_SymCleanup os); cbn [In]; intros Hin;
      repeat match goal with
             | H : _ ∨ _ |- _ => destruct H
             | H : False |- _ => destruct H
             | H : In _ (trace_line _ _ _) |- _ => apply Hlog in H
             end; discriminate.
Qed.

(** ** Process creation and the symbol provider *)

(** X16. The options given to the symbol provider, bit by bit: those it already
    had, with undecorated names (bit 1), line numbers (bit 4) and the nearest
    OMAP lookup (bit 5) added; the debug output (bit 31) added when
    [debug_flag] is set; the 32-bit modules (bit 13) added in a 64-bit build
    for a process of the 32-bit subsystem. No bit is cleared, and deferred
    loading (bit 2) is never added. *)
Theorem symbol_options_bits (W : bool) (opts : DebugOptions) (os : OS_REPLIES)
    (n : Z) :
  Z.testbit (symbol_options W opts os) n
  = Z.testbit (r_SymGetOptions os) n
    || (1 =? n) || (4 =? n) || (5 =? n)
    || (debug_flag opts && (31 =? n))
    || (W && r_IsWow64Process os && (13 =? n)).
Proof.
  unfold symbol_options.
  change SYMOPT_UNDNAME with (2 ^ 1).
  change SYMOPT_LOAD_LINES with (2 ^ 4).
  change SYMOPT_OMAP_FIND_NEAREST with (2 ^ 5).
  change SYMOPT_DEBUG with (2 ^ 31).
  change SYMOPT_INCLUDE_32BIT_MODULES with (2 ^ 13).
  destruct (debug_flag opts), (W && r_IsWow64Process os);
    rewrite ?Z.lor_spec, ?Z.pow2_bits_eqb by lia;
    cbn [andb]; rewrite ?orb_false_r, ?orb_assoc; reflexivity.
Qed.

(** X17. On a process-create the options are set and the symbol provider is
    initialised for the new process, in this order and once each, after the
    registry has taken the process. When the initialisation succeeds, the
    callback is registered, the module of the executable is loaded and the
    thread is resumed. When it fails, the failure is reported and the program
    exits with [EXIT_FAILURE]: no callback is registered, no module loaded,
    the file handle of the notification is not closed and the thread is not
    resumed. *)
Theorem process_create_sequence (W : bool) (opts : DebugOptions)
    (os : OS_REPLIES) (ev : DEBUG_EVENT) (s : Session)
    (hFile hp ht : HANDLE) (base : Z) :
  u ev = CREATE_PROCESS_DEBUG_EVENT hFile hp ht base →
  let h := loop_body W opts os ev s in
  h_actions h
  = trace_line opts "CREATE_PROCESS PID=%lu TID=%lu\r\n"
      [dwProcessId ev; dwThreadId ev]
    ++ [SymSetOptions (symbol_options W opts os); InitializeSym hp false]
    ++ (if r_InitializeSym os
        then [SymRegisterCallback64 hp]
             ++ loadModule (r_SymLoadModuleEx os) hp hFile base
             ++ [ContinueDebugEvent (dwProcessId ev) (dwThreadId ev) DBG_CONTINUE]
        else [OutputDebug "error: SymInitialize failed: 0x%08lx\n";
              exit_program EXIT_FAILURE])
  ∧ h_control h = (if r_InitializeSym os then Break else Exit EXIT_FAILURE)
  ∧ (r_InitializeSym os = false →
     count is_SymRegisterCallback64 (h_actions h) = 0%nat
     ∧ count is_SymLoadModuleEx (h_actions h) = 0%nat
     ∧ count is_CloseHandle (h_actions h) = 0%nat
     ∧ count is_ContinueDebugEvent (h_actions h) = 0%nat
     ∧ process_handle (g_Processes (h_session h)) (dwProcessId ev) = hp).
Proof.
  intros Hu h. subst h.
  assert (Hc : h_control (loop_body W opts os ev s)
               = if r_InitializeSym os then Break else Exit EXIT_FAILURE).
  { rewrite control_after, Hu. reflexivity. }
  assert (Hacts :
    h_actions (loop_body W opts os ev s)
    = trace_line opts "CREATE_PROCESS PID=%lu TID=%lu\r\n"
        [dwProcessId ev; dwThreadId ev]
      ++ [SymSetOptions (symbol_options W opts os); InitializeSym hp false]
      ++ (if r_InitializeSym os
          then [SymRegisterCallback64 hp]
               ++ loadModule (r_SymLoadModuleEx os) hp hFile base
               ++ [ContinueDebugEvent (dwProcessId ev) (dwThreadId ev) DBG_CONTINUE]
          else [OutputDebug "error: SymInitialize failed: 0x%08lx\n";
                exit_program EXIT_FAILURE])).
  { unfold loop_body. cbv zeta. rewrite loop_body_control in Hc. rewrite Hc.
    unfold dispatch. rewrite Hu. unfold on_create_process, symbol_options.
    destruct (subscript_p _ _) as [p g].
    destruct (r_InitializeSym os); cbn [negb h_actions h_status plain];
      rewrite <- ?app_assoc; reflexivity. }
  split; [exact Hacts|]. split; [exact Hc|].
  intros Hfail. rewrite Hacts, Hfail.
  repeat split; try (count_simpl; reflexivity).
  rewrite (registry_after_create_process _ _ _ _ _ _ _ _ _ Hu).
  apply process_handle_insert.
Qed.

Lemma process_create_sequence_witness :
  h_control (loop_body true quiet_options sym_init_fails process_create_1
               (session_start ∅))
  = Exit EXIT_FAILURE.
Proof.
  exact (proj1 (proj2 (process_create_sequence true quiet_options
                         sym_init_fails process_create_1 (session_start ∅)
                         5 100 110 0x400000 eq_refl))).
Defined.

(** ** Module load and unload *)

(** X18. [loadModule] hands the module to the symbol provider once, reports a
    failure and goes on, and closes the file handle exactly when it is not
    null, whether the load succeeded or not. *)
Theorem loadModule_closes_file (ok : bool) (hp hFile : HANDLE) (base : Z) :
  let acts := loadModule ok hp hFile base in
  count is_SymLoadModuleEx acts = 1%nat
  ∧ head acts = Some (SymLoadModuleEx hp hFile base)
  ∧ count is_CloseHandle acts = (if hFile =? NULL then 0%nat else 1%nat)
  ∧ (hFile ≠ NULL → last acts = Some (CloseHandle hFile))
  ∧ (In (OutputDebug "warning: SymLoadModule64 failed: 0x%08lx\n") acts
     ↔ ok = false).
Proof.
  unfold loadModule. destruct ok, (Z.eqb_spec hFile NULL) as [->|Hne]; cbn;
    repeat split; try reflexivity; try congruence; intros; try tauto;
    try discriminate;
    repeat match goal with
           | H : _ ∨ _ |- _ => destruct H
           | H : False |- _ => destruct H
           end; try discriminate; auto.
Qed.

Lemma loadModule_closes_file_witness :
  last (loadModule false 100 5 0x400000) = Some (CloseHandle 5).
Proof.
  apply (loadModule_closes_file false 100 5 0x400000). discriminate.
Defined.

(** X19. A module-load is handed to [loadModule] with the process handle the
    registry holds, and a module-unload to [SymUnloadModule64]; each then
    resumes the thread with [DBG_CONTINUE]. *)
Theorem module_events_forwarded (W : bool) (opts : DebugOptions)
    (os : OS_REPLIES) (ev : DEBUG_EVENT) (s : Session) :
  let hp := process_handle (g_Processes s) (dwProcessId ev) in
  let resume :=
    [ContinueDebugEvent (dwProcessId ev) (dwThreadId ev) DBG_CONTINUE] in
  (∀ hFile base,
     u ev = LOAD_DLL_DEBUG_EVENT hFile base →
     h_actions (loop_body W opts os ev s)
     = trace_line opts "LOAD_DLL PID=%lu TID=%lu lpBaseOfDll=%p\r\n"
         [dwProcessId ev; dwThreadId ev; base]
       ++ loadModule (r_SymLoadModuleEx os) hp hFile base ++ resume)
  ∧ (∀ base,
       u ev = UNLOAD_DLL_DEBUG_EVENT base →
       h_actions (loop_body W opts os ev s)
       = trace_line opts "UNLOAD_DLL PID=%lu TID=%lu lpBaseOfDll=%p\r\n"
           [dwProcessId ev; dwThreadId ev; base]
         ++ [SymUnloadModule64 hp base] ++ resume).
Proof.
  intros hp resume. subst hp resume.
  pose proof (subscript_p_handle (dwProcessId ev) (g_Processes s)) as Hp.
  split; intros; unfold loop_body, dispatch; cbv zeta; rewrite H;
    unfold on_load_dll, on_unload_dll;
    destruct (subscript_p _ _) as [p g]; cbn [fst] in Hp; rewrite <- Hp;
    cbn [h_control h_actions h_status plain]; rewrite <- ?app_assoc;
    reflexivity.
Qed.

Lemma module_events_forwarded_witness :
  h_actions (loop_body true quiet_options all_fine
               (event 1 10 (UNLOAD_DLL_DEBUG_EVENT 0x10000000))
               (session_start one_thread_registry))
  = [SymUnloadModule64 100 0x10000000; ContinueDebugEvent 1 10 DBG_CONTINUE].
Proof.
  exact (proj2 (module_events_forwarded true quiet_options all_fine
                  (event 1 10 (UNLOAD_DLL_DEBUG_EVENT 0x10000000))
                  (session_start one_thread_registry))
           0x10000000 eq_refl).
Defined.

(** ** More on readProcessString *)

Lemma c_str_until_nul (d : list Byte.byte) (rest : buffer) :
  c_str ((Some <$> d) ++ Some NUL :: rest) = Some (until_nul d).
Proof.
  induction d as [|b d IH]; [reflexivity|].
  cbn. destruct (Byte.eqb b NUL); [reflexivity|].
  cbn in IH. by rewrite IH.
Qed.

(** The buffer [readProcessString] returns when its assertion holds. *)
Lemma readProcessString_buffer (reply : RPM_REPLY) (hp : HANDLE) (addr : Z)
    (L : nat) :
  (rpm_NumberOfBytesRead reply ≤ L)%nat →
  readProcessString reply hp addr L
  = (ReadProcessMemory hp addr L,
     Some (<[rpm_NumberOfBytesRead reply := Some NUL]>
             (if rpm_ok reply
              then rpm_write L (rpm_data reply) (malloc (L + 1))
              else <[0%nat := Some NUL]>
                     (rpm_write L (rpm_data reply) (malloc (L + 1)))))).
Proof.
  intros Hn. unfold readProcessString.
  apply Nat.leb_le in Hn. by rewrite Hn.
Qed.

Lemma length_read_buffer (reply : RPM_REPLY) (L : nat) :
  length (if rpm_ok reply
          then rpm_write L (rpm_data reply) (malloc (L + 1))
          else <[0%nat := Some NUL]>
                 (rpm_write L (rpm_data reply) (malloc (L + 1))))
  = (L + 1)%nat.
Proof.
  destruct (rpm_ok reply); rewrite ?length_insert;
    unfold malloc; rewrite length_rpm_write; rewrite length_replicate; lia.
Qed.

(** X20. What the string is. When the count reported exceeds the length asked,
    the assertion fails and nothing is returned. Otherwise, after a
    successful read that copied at least the count it reports, the string is
    the data up to that count, cut at its first NUL if it has one: a partial
    read gives a truncated string, and a count of zero the empty string,
    whatever the length asked. *)
Theorem readProcessString_string (reply : RPM_REPLY) (hp : HANDLE) (addr : Z)
    (L : nat) :
  let n := rpm_NumberOfBytesRead reply in
  ((L < n)%nat → snd (readProcessString reply hp addr L) = None)
  ∧ ((n ≤ L)%nat →
     ∃ buf,
       snd (readProcessString reply hp addr L) = Some buf
       ∧ (rpm_ok reply = true → (n ≤ length (rpm_data reply))%nat →
          c_str buf = Some (until_nul (take n (rpm_data reply))))
       ∧ (n = 0%nat → c_str buf = Some [])).
Proof.
  intros n. subst n. split.
  - intros Hlt. unfold readProcessString.
    apply Nat.leb_gt in Hlt. by rewrite Hlt.
  - intros Hn. rewrite (readProcessString_buffer _ _ _ _ Hn). cbn [snd].
    eexists. split; [reflexivity|].
    pose proof (length_read_buffer reply L) as Hlen.
    set (n := rpm_NumberOfBytesRead reply) in *.
    split.
    + intros Hok Hdata. rewrite Hok in *.
      rewrite insert_take_drop by lia.
      assert (Htake : take n (rpm_write L (rpm_data reply) (malloc (L + 1)))
                      = Some <$> take n (rpm_data reply)).
      { unfold rpm_write. cbn zeta. rewrite take_app_le.
        - rewrite <- fmap_take, take_take. by rewrite Nat.min_l by lia.
        - rewrite length_fmap, length_take. lia. }
      rewrite Htake. apply c_str_until_nul.
    + intros Hz. rewrite Hz.
      destruct (if rpm_ok reply then _ else _) as [|c b]; [cbn in Hlen; lia|].
      reflexivity.
Qed.

Lemma readProcessString_string_witness :
  ∃ buf,
    snd (readProcessString
           {| rpm_ok := true; rpm_data := [Byte.x61; Byte.x62; Byte.x63];
              rpm_NumberOfBytesRead := 2 |} 100 4096 3) = Some buf
    ∧ c_str buf = Some [Byte.x61; Byte.x62].
Proof.
  destruct (proj2 (readProcessString_string
                     {| rpm_ok := true; rpm_data := [Byte.x61; Byte.x62; Byte.x63];
                        rpm_NumberOfBytesRead := 2 |} 100 4096 3))
    as (buf & Hb & Hs & _).
  - cbn. lia.
  - exists buf. split; [exact Hb|]. apply Hs; [reflexivity|cbn; lia].
Defined.

(** ** Debug strings *)

(** X21. A debug string marked as wide fails the assertion before anything is
    read or written. Otherwise the handler asks for the length the
    notification gives, from the address it gives, with the process handle
    the registry holds; when the read reports no more than that length, the
    string of the buffer goes to [stderr] (the empty string when the read
    failed, and never more bytes than the read reports) and the thread is
    resumed; when it reports more, the second assertion fails and nothing is
    written. *)
Theorem debug_string_relayed (W : bool) (opts : DebugOptions) (os : OS_REPLIES)
    (ev : DEBUG_EVENT) (s : Session) (data fU len : Z) :
  u ev = OUTPUT_DEBUG_STRING_EVENT data fU len →
  let h := loop_body W opts os ev s in
  let hp := process_handle (g_Processes s) (dwProcessId ev) in
  let n := rpm_NumberOfBytesRead (r_ReadProcessMemory os) in
  let log := trace_line opts "OUTPUT_DEBUG_STRING PID=%lu TID=%lu\r\n"
               [dwProcessId ev; dwThreadId ev] in
  (fU ≠ 0 → h_actions h = log ∧ h_control h = Abort)
  ∧ (fU = 0 → (Z.to_nat len < n)%nat →
     h_actions h = log ++ [ReadProcessMemory hp data (Z.to_nat len)]
     ∧ h_control h = Abort)
  ∧ (fU = 0 → (n ≤ Z.to_nat len)%nat →
     ∃ str,
       h_actions h
       = log ++ [ReadProcessMemory hp data (Z.to_nat len); fputs_stderr str;
                 ContinueDebugEvent (dwProcessId ev) (dwThreadId ev) DBG_CONTINUE]
       ∧ (rpm_ok (r_ReadProcessMemory os) = false → str = Some [])
       ∧ (∀ bytes, str = Some bytes → (length bytes ≤ n)%nat)).
Proof.
  intros Hu h hp n log. subst h hp n log.
  pose proof (subscript_p_handle (dwProcessId ev) (g_Processes s)) as Hp.
  unfold loop_body, dispatch. cbv zeta. rewrite Hu. unfold on_debug_string.
  destruct (subscript_p _ _) as [p g]. cbn [fst] in Hp. rewrite <- Hp.
  split; [|split].
  - intros Hne. apply Z.eqb_neq in Hne. rewrite Hne. cbn. by split.
  - intros -> Hlt. change (0 =? 0) with true. cbn [negb].
    unfold readProcessString. apply Nat.leb_gt in Hlt. rewrite Hlt. cbn.
    by split.
  - intros -> Hn. change (0 =? 0) with true. cbn [negb].
    rewrite (readProcessString_buffer _ _ _ _ Hn).
    cbn [h_control h_actions h_status plain]. eexists.
    split; [by rewrite <- app_assoc|].
    pose proof (length_read_buffer (r_ReadProcessMemory os) (Z.to_nat len)) as Hlen.
    split.
    + intros Hfail. rewrite Hfail in *.
      destruct (rpm_write _ _ _) as [|c b]; [cbn in Hlen; lia|].
      by destruct (rpm_NumberOfBytesRead (r_ReadProcessMemory os)).
    + intros bytes Hs. eapply c_str_bounded; [|exact Hs].
      apply list_lookup_insert_eq. lia.
Qed.

Lemma debug_string_relayed_witness :
  h_control (loop_body true quiet_options all_fine
               (event 1 10 (OUTPUT_DEBUG_STRING_EVENT 4096 1 8))
               (session_start one_thread_registry))
  = Abort.
Proof.
  apply (proj1 (debug_string_relayed true quiet_options all_fine
                  (event 1 10 (OUTPUT_DEBUG_STRING_EVENT 4096 1 8))
                  (session_start one_thread_registry) 4096 1 8 eq_refl)).
  discriminate.
Defined.

(** ** Properties of every step of a run *)

Lemma steps_forall (W : bool) (opts : DebugOptions) (P : Step → Prop) :
  P failed_wait →
  (∀ os ev s,
     P {| st_event := Some ev;
          st_actions := h_actions (loop_body W opts os ev s) |}) →
  ∀ (inputs : list (option (DEBUG_EVENT * OS_REPLIES))) (s : Session),
    Forall P (steps (loop W opts inputs s)).
Proof.
  intros Hfail Hstep. induction inputs as [|[[ev os]|] rest IH]; intros s;
    (destruct (fFinished s) eqn:Hf;
     [rewrite loop_finished by done; constructor|]).
  - cbn. rewrite Hf. constructor.
  - rewrite (loop_cons _ _ _ _ _ _ Hf). cbv zeta.
    destruct (h_control (loop_body W opts os ev s)); cbn;
      repeat constructor; auto.
  - cbn. rewrite Hf. by repeat constructor.
Qed.

(** X22. Without an attach signal ([hEvent] null) no step of any run calls
    [SetEvent], and the only [CloseHandle] calls are those of [loadModule] on
    the file handle the notification carried. *)
Theorem no_signal_without_handle (W : bool) (opts : DebugOptions)
    (inputs : list (option (DEBUG_EVENT * OS_REPLIES)))
    (g : gmap Z PROCESS_INFO) :
  hEvent opts = NULL →
  Forall (fun st => signal_calls st = [])
    (steps (DebugMainLoop W opts inputs g)).
Proof.
  intros Hnull. apply steps_forall; [reflexivity|].
  intros os ev s. unfold signal_calls. cbn [st_event st_actions].
  rewrite signal_calls_of_iteration, Hnull. cbn. by rewrite andb_false_r.
Qed.

Lemma no_signal_without_handle_witness :
  Forall (fun st => signal_calls st = [])
    (steps (DebugMainLoop true quiet_options attach_then_breakpoint ∅)).
Proof.
  apply (no_signal_without_handle true quiet_options attach_then_breakpoint ∅).
  reflexivity.
Defined.

(** ** Tracing *)

Lemma untraced_app (l1 l2 : list action) :
  untraced (l1 ++ l2) = untraced l1 ++ untraced l2.
Proof. unfold untraced. by rewrite List.filter_app, map_app. Qed.

Lemma untraced_cons (a : action) (l : list action) :
  untraced (a :: l)
  = if is_lprintf a then untraced l else ignore_debug_bit a :: untraced l.
Proof. unfold untraced. cbn [List.filter]. by destruct (is_lprintf a). Qed.

(** Setting a bit that is set again later changes nothing. *)
Lemma lor_set_twice (a d : Z) : Z.lor (Z.lor a d) d = Z.lor a d.
Proof. by rewrite <- Z.lor_assoc, Z.lor_diag. Qed.

Lemma lor_set_before (a d m : Z) :
  Z.lor (Z.lor (Z.lor a d) m) d = Z.lor (Z.lor a m) d.
Proof.
  apply Z.bits_inj'. intros n _. rewrite !Z.lor_spec.
  by destruct (Z.testbit a n), (Z.testbit d n), (Z.testbit m n).
Qed.

Lemma quiet_equiv (W : bool) (opts : DebugOptions) (os : OS_REPLIES)
    (ev : DEBUG_EVENT) (s : Session) :
  let h := loop_body W opts os ev s in
  let q := loop_body W (with_debug_flag false opts) os ev s in
  h_session h = h_session q
  ∧ h_status h = h_status q
  ∧ h_control h = h_control q
  ∧ untraced (h_actions h) = untraced (h_actions q).
Proof.
  destruct opts as [bf vf df fcf he]. destruct df; [|by repeat split].
  unfold with_debug_flag. cbn [breakpoint_flag verbose_flag debug_flag
                                 first_chance hEvent].
  unfold loop_body, dispatch. cbv zeta.
  destruct (u ev) as [rec fc|ht|hFile hp ht base|code|code|hFile base|base
                     |data fU len| |code].
  - unfold on_exception, exception_capture, trace_line, dump_threads.
    cbn [breakpoint_flag verbose_flag debug_flag first_chance hEvent].
    destruct (fc =? 0), (ExceptionCode rec =? to_DWORD STATUS_BREAKPOINT),
      (fBreakpointSignalled s), (he =? NULL), bf, fcf; cbn [negb andb orb];
      repeat match goal with
             | |- context [if ?b && negb ?c then _ else _] =>
                 destruct (b && negb c)
             end;
      cbv iota;
      repeat match goal with
             | |- context [subscript_p ?a ?b] => destruct (subscript_p a b)
             end;
      repeat match goal with
             | |- context [undefined_read ?a ?b] => destruct (undefined_read a b)
             end;
      cbn [h_control h_actions h_session h_status];
      repeat split; rewrite ?untraced_app; reflexivity.
  - unfold on_create_thread, trace_line. cbn [debug_flag].
    destruct (subscript_p _ _).
    cbn [h_control h_actions h_session h_status plain].
    repeat split; rewrite ?untraced_app; reflexivity.
  - unfold on_create_process, loadModule, trace_line. cbn [debug_flag].
    destruct (subscript_p _ _).
    destruct (negb (r_InitializeSym os)), (W && r_IsWow64Process os);
      cbn [h_control h_actions h_session h_status plain];
      repeat split; rewrite ?untraced_app, !untraced_cons;
      cbn [is_lprintf ignore_debug_bit];
      rewrite ?lor_set_before, ?lor_set_twice; reflexivity.
  - unfold on_exit_thread, trace_line. cbn [debug_flag].
    destruct (subscript_p _ _).
    cbn [h_control h_actions h_session h_status plain].
    repeat split; rewrite ?untraced_app; reflexivity.
  - unfold on_exit_process, trace_line. cbn [debug_flag].
    destruct (subscript_p _ _).
    cbn [h_control h_actions h_session h_status plain].
    repeat split; rewrite ?untraced_app; reflexivity.
  - unfold on_load_dll, trace_line. cbn [debug_flag].
    destruct (subscript_p _ _).
    cbn [h_control h_actions h_session h_status plain].
    repeat split; rewrite ?untraced_app; reflexivity.
  - unfold on_unload_dll, trace_line. cbn [debug_flag].
    destruct (subscript_p _ _).
    cbn [h_control h_actions h_session h_status plain].
    repeat split; rewrite ?untraced_app; reflexivity.
  - unfold on_debug_string, trace_line. cbn [debug_flag].
    destruct (subscript_p _ _).
    destruct (negb (fU =? 0)); [|destruct (readProcessString _ _ _ _) as [c [b|]]];
      cbn [h_control h_actions h_session h_status plain];
      repeat split; rewrite ?untraced_app; reflexivity.
  - unfold trace_line. cbn [debug_flag].
    cbn [h_control h_actions h_session h_status plain].
    repeat split; rewrite ?untraced_app; reflexivity.
  - unfold trace_line. cbn [debug_flag].
    cbn [h_control h_actions h_session h_status plain].
    repeat split; rewrite ?untraced_app; reflexivity.
Qed.

(** X23. Tracing is transparent. Whatever [debug_flag] is, an iteration leaves
    the same session, resumes with the same disposition and ends the same
    way, and makes the same calls in the same order, apart from the lines of
    the event log, which come and go, and the debug bit of the options given
    to [SymSetOptions]: that call stays in its place and its options agree on
    every other bit. With [debug_flag] off the iteration writes no line to
    the log. *)
Theorem tracing_is_transparent (W : bool) (opts : DebugOptions)
    (os : OS_REPLIES) (ev : DEBUG_EVENT) (s : Session) (d : bool) :
  let h := loop_body W opts os ev s in
  let h' := loop_body W (with_debug_flag d opts) os ev s in
  h_session h' = h_session h
  ∧ h_status h' = h_status h
  ∧ h_control h' = h_control h
  ∧ untraced (h_actions h') = untraced (h_actions h)
  ∧ (d = false → count is_lprintf (h_actions h') = 0%nat).
Proof.
  intros h h'. subst h h'.
  destruct (quiet_equiv W opts os ev s) as (Hs & Hst & Hc & Ha).
  destruct (quiet_equiv W (with_debug_flag d opts) os ev s)
    as (Hs' & Hst' & Hc' & Ha').
  change (with_debug_flag false (with_debug_flag d opts))
    with (with_debug_flag false opts) in *.
  repeat split; try congruence.
  intros ->.
  assert (Hz : count is_lprintf
                 (h_actions (dispatch W (with_debug_flag false opts) os ev s))
               = 0%nat).
  { unfold_handlers. unfold trace_line. cbn [debug_flag with_debug_flag].
    destruct (u ev); repeat case_match; simplify_eq; cbn [h_actions];
      rewrite ?app_nil_l; count_simpl; reflexivity. }
  destruct (h_control (dispatch W (with_debug_flag false opts) os ev s)) eqn:Hb.
  - rewrite (loop_body_actions_break _ _ _ _ _ Hb). count_simpl. rewrite Hz.
    reflexivity.
  - rewrite loop_body_actions_stop; [exact Hz|congruence].
  - rewrite loop_body_actions_stop; [exact Hz|congruence].
  - rewrite loop_body_actions_stop; [exact Hz|congruence].
Qed.

Lemma tracing_is_transparent_witness :
  count is_lprintf
    (h_actions (loop_body true (with_debug_flag false signalling_options)
                  all_fine process_create_1 (session_start ∅))) = 0%nat.
Proof.
  apply (tracing_is_transparent true signalling_options all_fine
           process_create_1 (session_start ∅) false).
  reflexivity.
Defined.

(** ** The registry in a session *)

Lemma disciplined_app (l1 l2 before : list DEBUG_EVENT) :
  disciplined before (l1 ++ l2) = true → disciplined before l1 = true.
Proof.
  revert before. induction l1 as [|e l1 IH]; intros before; [reflexivity|].
  cbn. intros H. apply andb_true_iff in H as [H1 H2].
  rewrite H1. cbn. by apply IH.
Qed.

Lemma disciplined_lifecycle (evs before : list DEBUG_EVENT) :
  disciplined before evs = true →
  Forall (fun ev => is_lifecycle ev = true) evs.
Proof.
  revert before. induction evs as [|e evs IH]; intros before H; [constructor|].
  cbn in H. apply andb_true_iff in H as [H Hrest].
  apply andb_true_iff in H as [Hlife _].
  constructor; [exact Hlife|by eapply IH].
Qed.

(** A run on lifecycle events whose handlers do not end the program is the
    replay of the events it handled; it stops short of the end of the events
    only by returning TRUE. *)
Lemma loop_is_replay (W : bool) (opts : DebugOptions) :
  ∀ (inputs : list (DEBUG_EVENT * OS_REPLIES)) (s : Session),
    fFinished s = false →
    Forall (fun i => is_lifecycle (fst i) = true) inputs →
    Forall (fun i => ends_program (snd i) (fst i) = false) inputs →
    let r := loop W opts (Some <$> inputs) s in
    replay W opts (take (length (steps r)) inputs) s = Some (final r)
    ∧ (outcome r = Waiting ∧ length (steps r) = length inputs
       ∨ outcome r = Returned true).
Proof.
  induction inputs as [|[ev os] rest IH]; intros s Hf Hlife Hok r; subst r.
  - cbn. rewrite Hf. cbn. split; [reflexivity|]. by left.
  - apply Forall_cons in Hok as [Hok Hoks]. cbn in Hok.
    apply Forall_cons in Hlife as [Hlife Hlifes]. cbn in Hlife.
    apply (control_break_plain W opts) with (s := s) in Hok;
      [|by apply lifecycle_is_not_exception].
    cbn [fmap list_fmap]. rewrite (loop_cons _ _ _ _ _ _ Hf). cbv zeta.
    rewrite Hok. cbn [cons_step outcome final steps length take replay].
    cbv zeta. rewrite Hok.
    destruct (fFinished (h_session (loop_body W opts os ev s))) eqn:Hf'.
    + rewrite loop_finished by done. cbn. split; [reflexivity|]. by right.
    + destruct (IH _ Hf' Hlifes Hoks) as [Hrep Hout]. split; [exact Hrep|].
      destruct Hout as [[Hw Hlen]|Hret]; [left|by right].
      split; [exact Hw|]. cbn. by rewrite Hlen.
Qed.

(** X24. In a session that starts with an empty registry and receives lifecycle
    notifications under the registry discipline, with symbol initialisation
    succeeding, the loop either handles them all and waits, or returns TRUE
    on the way; either way the registry then holds exactly the processes and
    threads created and not yet exited by the notifications it handled. *)
Theorem session_registry_tracks (W : bool) (opts : DebugOptions)
    (inputs : list (DEBUG_EVENT * OS_REPLIES)) :
  disciplined [] (map fst inputs) = true →
  Forall (fun i => ends_program (snd i) (fst i) = false) inputs →
  let r := DebugMainLoop W opts (Some <$> inputs) ∅ in
  let handled := map fst (take (length (steps r)) inputs) in
  tracks handled (final r)
  ∧ (outcome r = Waiting ∧ handled = map fst inputs
     ∨ outcome r = Returned true ∧ g_Processes (final r) = ∅).
Proof.
  intros Hd Hok r handled. subst r handled. unfold DebugMainLoop.
  assert (Hlife : Forall (fun i => is_lifecycle (fst i) = true) inputs).
  { apply disciplined_lifecycle in Hd. by apply List.Forall_map in Hd. }
  destruct (loop_is_replay W opts inputs (session_start ∅) eq_refl Hlife Hok)
    as [Hrep Hout].
  set (r := loop W opts (Some <$> inputs) (session_start ∅)) in *.
  set (n := length (steps r)) in *.
  assert (Hd' : disciplined [] (map fst (take n inputs)) = true).
  { apply (disciplined_app _ (map fst (drop n inputs))).
    by rewrite <- map_app, take_drop. }
  assert (Hok' : Forall (fun i => ends_program (snd i) (fst i) = false)
                   (take n inputs)).
  { by apply Forall_take. }
  destruct (replay_tracks W opts (take n inputs) [] (session_start ∅))
    as (s' & Hs' & Htr); [|exact Hd'|exact Hok'|].
  { intros pid. unfold process_registered, thread_registered. cbn.
    by rewrite lookup_empty. }
  rewrite Hrep in Hs'. injection Hs' as <-. cbn [app] in Htr.
  split; [exact Htr|].
  destruct Hout as [[Hw Hlen]|Hret].
  - left. split; [exact Hw|]. subst n. rewrite Hlen. by rewrite firstn_all.
  - right. split; [exact Hret|].
    assert (Hfin : ∀ ins s, fFinished s = false →
                     outcome (loop W opts ins s) = Returned true →
                     g_Processes (final (loop W opts ins s)) = ∅).
    { induction ins as [|[[ev os]|] rest IH]; intros s Hf.
      - cbn. rewrite Hf. discriminate.
      - rewrite (loop_cons _ _ _ _ _ _ Hf). cbv zeta.
        destruct (h_control (loop_body W opts os ev s)); try discriminate.
        cbn [cons_step outcome final]. intros Hr.
        destruct (fFinished (h_session (loop_body W opts os ev s))) eqn:Hf'.
        + rewrite loop_finished by done. cbn.
          rewrite finished_after, Hf in Hf'. cbn in Hf'.
          apply andb_true_iff in Hf' as [_ He].
          by apply bool_decide_eq_true in He.
        + by apply IH.
      - cbn. rewrite Hf. discriminate. }
    by apply Hfin.
Qed.

Lemma session_registry_tracks_witness :
  tracks (map fst (take (length (steps (DebugMainLoop true quiet_options
                                          (Some <$> two_processes) ∅)))
                     two_processes))
    (final (DebugMainLoop true quiet_options (Some <$> two_processes) ∅)).
Proof.
  apply (session_registry_tracks true quiet_options two_processes).
  - reflexivity.
  - repeat constructor.
Defined.

(** ** ObtainSeDebugPrivilege *)

(** X25. The privilege is obtained (a non-zero result) exactly when the token is
    opened, the new state is allocated and an adjustment succeeds: the first
    one, or, when the first fails for want of room, the retry on a block of
    the size the first one asked for, if that block is allocated. The result
    of an adjustment is read as a byte. *)
Theorem privilege_obtained_iff (r : PRIV_REPLIES) :
  fst (ObtainSeDebugPrivilege r) ≠ 0
  ↔ is_Some (p_OpenProcessToken r)
    ∧ p_NewPrivileges r ≠ NULL
    ∧ (to_BOOLEAN (p_Adjust_first r) ≠ 0
       ∨ (to_BOOLEAN (p_Adjust_first r) = 0
          ∧ p_GetLastError r = ERROR_INSUFFICIENT_BUFFER
          ∧ p_pbOldPriv r ≠ NULL
          ∧ to_BOOLEAN (p_Adjust_second r) ≠ 0)).
Proof.
  unfold ObtainSeDebugPrivilege.
  destruct (p_OpenProcessToken r) as [hToken|].
  - destruct (Z.eqb_spec (p_NewPrivileges r) NULL) as [Hn|Hn].
    + cbn. split; [done|]. intros (_ & H & _). done.
    + destruct (Z.eqb_spec (to_BOOLEAN (p_Adjust_first r)) 0) as [Hf|Hf].
      * destruct (Z.eqb_spec (p_GetLastError r) ERROR_INSUFFICIENT_BUFFER)
          as [He|He].
        -- destruct (Z.eqb_spec (p_pbOldPriv r) NULL) as [Ho|Ho]; cbn.
           ++ split; [done|]. intros (_ & _ & [H|(_ & _ & H & _)]); done.
           ++ split.
              ** intros H. split; [eauto|]. split; [done|]. right. done.
              ** intros (_ & _ & [H|(_ & _ & _ & H)]); done.
        -- cbn. split; [done|].
           intros (_ & _ & [H|(_ & H & _)]); done.
      * cbn. split.
        -- intros _. split; [eauto|]. split; [done|]. by left.
        -- done.
  - cbn. split; [done|]. intros ([? ?] & _). done.
Qed.

(** X26. At most two adjustments are made, none when the token cannot be opened
    or the new state cannot be allocated. Each enables one privilege, the
    one looked up, on the token opened, and disables none. The first offers
    the 1024 bytes of the array on the stack for the previous state; a second
    is made only after the first has failed with
    [ERROR_INSUFFICIENT_BUFFER], and offers a block of the size the first
    asked for. *)
Theorem privilege_adjustments (r : PRIV_REPLIES) :
  let calls := snd (ObtainSeDebugPrivilege r) in
  let state := {| PrivilegeCount := 1; Luid := p_LuidPrivilege r;
                  Attributes := SE_PRIVILEGE_ENABLED |} in
  (length (adjustments calls) ≤ 2)%nat
  ∧ (p_OpenProcessToken r = None ∨ p_NewPrivileges r = NULL →
     adjustments calls = [])
  ∧ (∀ hToken,
       p_OpenProcessToken r = Some hToken → p_NewPrivileges r ≠ NULL →
       ∃ retry,
         adjustments calls
         = AdjustTokenPrivileges hToken false state 1024 OldPriv :: retry
         ∧ (retry = []
            ∨ retry = [AdjustTokenPrivileges hToken false state (p_cbNeeded r)
                         (heap_block (p_pbOldPriv r))]
              ∧ to_BOOLEAN (p_Adjust_first r) = 0
              ∧ p_GetLastError r = ERROR_INSUFFICIENT_BUFFER
              ∧ p_pbOldPriv r ≠ NULL)).
Proof.
  intros calls state. subst calls state. unfold ObtainSeDebugPrivilege.
  destruct (p_OpenProcessToken r) as [hToken|].
  - destruct (Z.eqb_spec (p_NewPrivileges r) NULL) as [Hn|Hn].
    + cbn. split; [lia|]. split; [done|]. intros ? _ ?. done.
    + destruct (Z.eqb_spec (to_BOOLEAN (p_Adjust_first r)) 0) as [Hf|Hf];
        [destruct (Z.eqb_spec (p_GetLastError r) ERROR_INSUFFICIENT_BUFFER)
           as [He|He];
         [destruct (Z.eqb_spec (p_pbOldPriv r) NULL) as [Ho|Ho]|]|];
        cbn; (split; [lia|]); (split; [intros [?|?]; done|]);
        intros h [= <-] _; eexists; (split; [reflexivity|]); auto.
  - cbn. split; [lia|]. split; [done|]. intros ? ?. done.
Qed.

Lemma privilege_adjustments_witness :
  ∃ retry,
    adjustments (snd (ObtainSeDebugPrivilege
                        (privilege_replies 0 ERROR_INSUFFICIENT_BUFFER 1)))
    = AdjustTokenPrivileges 40 false
        {| PrivilegeCount := 1; Luid := 20; Attributes := SE_PRIVILEGE_ENABLED |}
        1024 OldPriv :: retry.
Proof.
  destruct (proj2 (proj2 (privilege_adjustments
                            (privilege_replies 0 ERROR_INSUFFICIENT_BUFFER 1)))
              40 eq_refl)
    as (retry & Hr & _).
  - discriminate.
  - exists retry. exact Hr.
Defined.
